(** * Library management service: business rules of [library_service.py]

    A shallow embedding of the service functions of the library catalog
    (adding and searching books, borrowing, returning, late fees, fee
    settlement through a payment gateway) and the properties stated about
    them.

    Conventions of the embedding.
    - A Python [str] is a [string]; its characters are read as the code
      points U+0000..U+00FF.
    - A [datetime] is the number of microseconds since 1970-01-01T00:00:00
      (naive local time), an integer [Z]; the store keeps instants as ISO
      text and reads them back with [fromisoformat], which is the identity on
      instants.
    - A monetary amount is a rational [Q].  Every amount the fee calculation
      produces is a multiple of 0.50 of small magnitude, which a binary64
      float holds exactly, so rational arithmetic is what the floats compute.
    - The store ([database.py]), the wall clock ([datetime.now()]) and the
      outcome of each write are part of a [World] that every operation
      threads through. *)

From Stdlib Require Import ZArith QArith Qround Qminmax String Ascii List Lia DecimalString.
From Stdlib Require Import Sorted.
From stdpp Require Import gmap strings list fin_maps.

Local Open Scope string_scope.
Local Open Scope Z_scope.

(** ** Python strings *)

Module PyStr.

Definition code (c : ascii) : N := N_of_ascii c.

(** [c.isdigit()] for a code point below U+0100: the decimal digits and the
    superscript digits U+00B2, U+00B3, U+00B9. *)
Definition char_isdigit (c : ascii) : bool :=
  let n := code c in
  ((48 <=? n) && (n <=? 57) || (n =? 178) || (n =? 179) || (n =? 185))%N.

(** [c.isspace()] for a code point below U+0100. *)
Definition char_isspace (c : ascii) : bool :=
  let n := code c in
  ((9 <=? n) && (n <=? 13) || (28 <=? n) && (n <=? 32)
   || (n =? 133) || (n =? 160))%N.

Fixpoint all_chars (p : ascii -> bool) (s : string) : bool :=
  match s with
  | EmptyString => true
  | String c s' => p c && all_chars p s'
  end.

(** [bool(s)]: a string is truthy when it is not empty. *)
Definition truthy (s : string) : bool :=
  match s with EmptyString => false | String _ _ => true end.

(** [s.isdigit()]: at least one character and all of them digits. *)
Definition isdigit (s : string) : bool := truthy s && all_chars char_isdigit s.

Definition len (s : string) : nat := String.length s.

Fixpoint lstrip (s : string) : string :=
  match s with
  | EmptyString => EmptyString
  | String c s' => if char_isspace c then lstrip s' else s
  end.

(** Drops trailing white space: a character is kept when it is not white
    space or something after it is kept. *)
Fixpoint rstrip (s : string) : string :=
  match s with
  | EmptyString => EmptyString
  | String c s' =>
      match rstrip s' with
      | EmptyString => if char_isspace c then EmptyString else String c EmptyString
      | String _ _ as r => String c r
      end
  end.

(** [s.strip()] *)
Definition strip (s : string) : string := rstrip (lstrip s).

(** [s.startswith(p)] *)
Definition startswith (p s : string) : bool := String.prefix p s.


(** The double quote character, used inside messages. *)
Definition dquote : string := String (ascii_of_nat 34) EmptyString.

(** [str(n)] for an integer. *)
Definition of_int (n : Z) : string := NilZero.string_of_int (Z.to_int n).

(** Decimal text of a non-negative integer, zero-padded on the left to at
    least [width] characters. *)
Definition zero_pad (width : nat) (n : Z) : string :=
  let s := of_int n in
  String.concat EmptyString (repeat "0" (width - String.length s)) ++ s.

End PyStr.

(** ** Instants and calendar dates *)

Module PyTime.

Definition us_per_day : Z := 86400000000.

(** [timedelta(days=n)] *)
Definition timedelta_days (n : Z) : Z := n * us_per_day.

(** [(a - b).days]: a timedelta is normalised so that its seconds and
    microseconds are non-negative, hence [days] is the floor of the
    difference in days. *)
Definition days_between (a b : Z) : Z := (a - b) / us_per_day.

(** Year, month and day of the proleptic Gregorian date that lies [z] days
    after 1970-01-01. *)
Definition civil_from_days (z : Z) : Z * Z * Z :=
  let z := z + 719468 in
  let era := z / 146097 in
  let doe := z - era * 146097 in
  let yoe := (doe - doe / 1460 + doe / 36524 - doe / 146096) / 365 in
  let y := yoe + era * 400 in
  let doy := doe - (365 * yoe + yoe / 4 - yoe / 100) in
  let mp := (5 * doy + 2) / 153 in
  let d := doy - (153 * mp + 2) / 5 + 1 in
  let m := if mp <? 10 then mp + 3 else mp - 9 in
  (if m <=? 2 then y + 1 else y, m, d).

(** [t.strftime('%Y-%m-%d')] *)
Definition strftime_ymd (t : Z) : string :=
  let '(y, m, d) := civil_from_days (t / us_per_day) in
  PyStr.zero_pad 4 y ++ "-" ++ PyStr.zero_pad 2 m ++ "-" ++ PyStr.zero_pad 2 d.

End PyTime.

(** ** Amounts of money *)

Module Money.

(** Nearest integer, ties to the even one. *)
Definition round_half_even (q : Q) : Z :=
  let f := Qfloor q in
  match Qcompare (q - inject_Z f) (1 # 2) with
  | Lt => f
  | Gt => f + 1
  | Eq => if Z.even f then f else f + 1
  end.

(** [round(q, 2)] *)
Definition round2 (q : Q) : Q := inject_Z (round_half_even (q * 100)) / 100.

(** [q > r] on amounts. *)
Definition gtb (q r : Q) : bool := negb (Qle_bool q r).

(** [f'{q:.2f}'] for a non-negative amount. *)
Definition format_2f (q : Q) : string :=
  let cents := round_half_even (q * 100) in
  PyStr.of_int (cents / 100) ++ "." ++ PyStr.zero_pad 2 (cents mod 100).

End Money.

(** ** Data model *)

(** A row of table [books]; the surrogate id is the key of the row. *)
Record Book := mkBook {
  title : string;
  author : string;
  isbn : string;
  total_copies : Z;
  available_copies : Z
}.

(** A row of table [borrow_records]; [return_date = None] is SQL NULL: the
    loan is open. *)
Record BorrowRecord := mkBorrowRecord {
  patron_id : string;
  book_id : Z;
  borrow_date : Z;
  due_date : Z;
  return_date : option Z
}.

(** The store: [books] keyed by its primary key, [borrow_records] in row
    order. *)
Record DB := mkDB {
  books : gmap Z Book;
  borrow_records : list BorrowRecord
}.

(** What an operation runs in: the store, the wall clock and the fate of the
    writes.  [clock n] is what the [n]-th call of [datetime.now()] returns and
    [ticks] counts the calls made so far; [disk n] tells whether the [n]-th
    write issued to the store succeeds and [writes] counts the writes issued so
    far. *)
Record World := mkWorld {
  db : DB;
  clock : nat -> Z;
  ticks : nat;
  disk : nat -> bool;
  writes : nat
}.

(** ** Operations as state transformers *)

Definition M (A : Type) : Type := World -> A * World.

Definition ret {A} (a : A) : M A := fun w => (a, w).

Definition bind {A B} (m : M A) (k : A -> M B) : M B :=
  fun w => let '(a, w') := m w in k a w'.

Notation "'let*' x ':=' c 'in' k" := (bind c (fun x => k))
  (at level 10, x name, c at level 100, k at level 200).

(** [datetime.now()]: reads the clock. *)
Definition datetime_now : M Z :=
  fun w => (clock w (ticks w),
            mkWorld (db w) (clock w) (S (ticks w)) (disk w) (writes w)).

(** A read-only query of the store. *)
Definition query {A} (f : DB -> A) : M A := fun w => (f (db w), w).

(** A write to the store: it either commits [f] and reports [True], or fails,
    changes nothing and reports [False]. *)
Definition commit (f : DB -> DB) : M bool :=
  fun w =>
    if disk w (writes w)
    then (true, mkWorld (f (db w)) (clock w) (ticks w) (disk w) (S (writes w)))
    else (false, mkWorld (db w) (clock w) (ticks w) (disk w) (S (writes w))).

(** ** The persistence accessors *)

Module Database.

(** Key of the next row of [books]: one more than the greatest key in
    use, 1 in an empty table. *)
Definition next_book_id (m : gmap Z Book) : Z :=
  1 + foldr Z.max 0 (map fst (map_to_list m)).

Definition with_available (n : Z) (b : Book) : Book :=
  mkBook (title b) (author b) (isbn b) (total_copies b) n.

Definition with_return_date (t : Z) (r : BorrowRecord) : BorrowRecord :=
  mkBorrowRecord (patron_id r) (book_id r) (borrow_date r) (due_date r) (Some t).

(** [return_date IS NULL] *)
Definition is_open (r : BorrowRecord) : bool :=
  match return_date r with None => true | Some _ => false end.

(** [patron_id = ? AND book_id = ?] *)
Definition of_pair (p : string) (b : Z) (r : BorrowRecord) : bool :=
  String.eqb (patron_id r) p && (book_id r =? b).

(** [SET return_date = ? WHERE patron_id = ? AND book_id = ? AND return_date IS
    NULL], on one row. *)
Definition close_record (p : string) (b : Z) (t : Z) (r : BorrowRecord) : BorrowRecord :=
  if of_pair p b r && is_open r then with_return_date t r else r.

(** Modelled from the spec: [get_book_by_id] of [database.py], which is not
    among the sources; section 6 has it as [find_book_by_id(id)], the row
    with that id or nothing. *)
Definition get_book_by_id (id : Z) : M (option Book) :=
  query (fun d => books d !! id).

(** Modelled from the spec: [get_book_by_isbn] of [database.py], section 6
    [find_book_by_isbn(isbn)]: a row with that ISBN or nothing. *)
Definition get_book_by_isbn (i : string) : M (option (Z * Book)) :=
  query (fun d =>
    head (List.filter (fun r => String.eqb (isbn (snd r)) i) (map_to_list (books d)))).

(** Modelled from the spec: [get_patron_borrow_count] of [database.py]; by
    section 4.4 the number of open records the patron holds, counted across
    all books. *)
Definition get_patron_borrow_count (p : string) : M Z :=
  query (fun d =>
    Z.of_nat (length (List.filter
      (fun r => String.eqb (patron_id r) p && is_open r) (borrow_records d)))).

(** Modelled from the spec: [insert_book] of [database.py], section 6
    [insert_book(title, author, isbn, total, available) -> bool]: a new row
    under a new surrogate id. *)
Definition insert_book (t a i : string) (total available : Z) : M bool :=
  commit (fun d =>
    mkDB (<[next_book_id (books d) := mkBook t a i total available]> (books d))
         (borrow_records d)).

(** Modelled from the spec: [insert_borrow_record] of [database.py], section
    6 [insert_borrow_record(patron, book, borrow_date, due_date) -> bool]: a
    new open record. *)
Definition insert_borrow_record (p : string) (b : Z) (borrowed due : Z) : M bool :=
  commit (fun d =>
    mkDB (books d) (borrow_records d ++ [mkBorrowRecord p b borrowed due None])).

(** Modelled from the spec: [update_book_availability] of [database.py],
    section 6 [adjust_book_availability(id, delta) -> bool]: adds [delta] to
    the available copies of the row with that id. *)
Definition update_book_availability (id : Z) (delta : Z) : M bool :=
  commit (fun d =>
    mkDB (alter (fun b => with_available (available_copies b + delta) b) id (books d))
         (borrow_records d)).

(** Modelled from the spec: [update_borrow_record_return_date] of
    [database.py], section 6 [close_borrow_record(patron, book, return_date)
    -> bool]: the update is keyed by the pair, so it sets the return date of
    every open record of that patron for that book. *)
Definition update_borrow_record_return_date (p : string) (b : Z) (t : Z) : M bool :=
  commit (fun d => mkDB (books d) (map (close_record p b t) (borrow_records d))).

End Database.

Import Database.

(** ** The service functions of [library_service.py] *)

(** The result of the fee calculation: the dictionary with keys
    [fee_amount], [days_overdue] and [status]. *)
Record FeeAssessment := mkFee {
  fee_amount : Q;
  days_overdue : Z;
  status : string
}.

(** [not patron_id or not patron_id.isdigit() or len(patron_id) != 6] *)
Definition invalid_patron_id (p : string) : bool :=
  negb (PyStr.truthy p) || negb (PyStr.isdigit p) || negb (PyStr.len p =? 6)%nat.

Definition msg_invalid_patron : string := "Invalid patron ID. Must be exactly 6 digits.".
Definition msg_book_not_found : string := "Book not found.".
Definition msg_not_available : string := "This book is currently not available.".
Definition msg_limit : string := "You have reached the maximum borrowing limit of 5 books.".
Definition msg_db_borrow_record : string :=
  "Database error occurred while creating borrow record.".
Definition msg_db_availability : string :=
  "Database error occurred while updating book availability.".
Definition msg_no_active_record : string :=
  "No active borrow record found for this patron and book.".
Definition msg_db_return_date : string :=
  "Database error occurred while updating return date.".

(** [add_book_to_catalog(title, author, isbn, total_copies)] *)
Definition add_book_to_catalog (title author isbn : string) (total_copies : Z)
  : M (bool * string) :=
  if negb (PyStr.truthy title) || negb (PyStr.truthy (PyStr.strip title)) then
    ret (false, "Title is required.")
  else if (200 <? PyStr.len (PyStr.strip title))%nat then
    ret (false, "Title must be less than 200 characters.")
  else if negb (PyStr.truthy author) || negb (PyStr.truthy (PyStr.strip author)) then
    ret (false, "Author is required.")
  else if (100 <? PyStr.len (PyStr.strip author))%nat then
    ret (false, "Author must be less than 100 characters.")
  else if negb (PyStr.len isbn =? 13)%nat then
    ret (false, "ISBN must be exactly 13 digits.")
  else if total_copies <=? 0 then
    ret (false, "Total copies must be a positive integer.")
  else
    let* existing := get_book_by_isbn isbn in
    match existing with
    | Some _ => ret (false, "A book with this ISBN already exists.")
    | None =>
        let* success :=
          insert_book (PyStr.strip title) (PyStr.strip author) isbn
                      total_copies total_copies in
        if success then
          ret (true, "Book " ++ PyStr.dquote ++ PyStr.strip title ++ PyStr.dquote
                     ++ " has been successfully added to the catalog.")
        else ret (false, "Database error occurred while adding the book.")
    end.

(** [borrow_book_by_patron(patron_id, book_id)] *)
Definition borrow_book_by_patron (patron_id : string) (book_id : Z) : M (bool * string) :=
  if invalid_patron_id patron_id then ret (false, msg_invalid_patron)
  else
    let* book := get_book_by_id book_id in
    match book with
    | None => ret (false, msg_book_not_found)
    | Some book =>
        if available_copies book <=? 0 then ret (false, msg_not_available)
        else
          let* current_borrowed := get_patron_borrow_count patron_id in
          if 5 <=? current_borrowed then ret (false, msg_limit)
          else
            let* borrow_date := datetime_now in
            let due_date := borrow_date + PyTime.timedelta_days 14 in
            let* borrow_success :=
              insert_borrow_record patron_id book_id borrow_date due_date in
            if negb borrow_success then ret (false, msg_db_borrow_record)
            else
              let* availability_success := update_book_availability book_id (-1) in
              if negb availability_success then ret (false, msg_db_availability)
              else
                ret (true, "Successfully borrowed " ++ PyStr.dquote ++ title book
                           ++ PyStr.dquote ++ ". Due date: "
                           ++ PyTime.strftime_ymd due_date ++ ".")
    end.

(** [SELECT * FROM borrow_records WHERE patron_id = ? AND book_id = ? AND
    return_date IS NULL], [fetchone()]. *)
Definition select_open_record (p : string) (b : Z) (d : DB) : option BorrowRecord :=
  head (List.filter (fun r => of_pair p b r && is_open r) (borrow_records d)).

(** The row with the greatest [borrow_date]; of several such rows the first. *)
Fixpoint latest_by_borrow_date (l : list BorrowRecord) : option BorrowRecord :=
  match l with
  | [] => None
  | r :: l' =>
      match latest_by_borrow_date l' with
      | None => Some r
      | Some r' => if borrow_date r <? borrow_date r' then Some r' else Some r
      end
  end.

(** [SELECT * FROM borrow_records WHERE patron_id = ? AND book_id = ? ORDER BY
    borrow_date DESC LIMIT 1], [fetchone()]. *)
Definition select_latest_record (p : string) (b : Z) (d : DB) : option BorrowRecord :=
  latest_by_borrow_date (List.filter (of_pair p b) (borrow_records d)).

(** [calculate_late_fee_for_book(patron_id, book_id)] *)
Definition calculate_late_fee_for_book (patron_id : string) (book_id : Z)
  : M FeeAssessment :=
  let* borrow_record := query (select_latest_record patron_id book_id) in
  match borrow_record with
  | None => ret (mkFee 0 0 "No borrow record found")
  | Some borrow_record =>
      let due_date := due_date borrow_record in
      let* check_date :=
        match return_date borrow_record with
        | Some t => ret t
        | None => datetime_now
        end in
      let days_overdue := PyTime.days_between check_date due_date in
      if days_overdue <=? 0 then ret (mkFee 0 0 "Not overdue")
      else
        let fee_amount :=
          if days_overdue <=? 7 then (inject_Z days_overdue * 0.50)%Q
          else ((7 * 0.50) + (inject_Z (days_overdue - 7) * 1.00))%Q in
        let fee_amount := if Money.gtb fee_amount 15.00 then 15.00%Q else fee_amount in
        ret (mkFee (Money.round2 fee_amount) days_overdue
                   (if 0 <? days_overdue then "Overdue" else "Not overdue"))
  end.

(** [return_book_by_patron(patron_id, book_id)] *)
Definition return_book_by_patron (patron_id : string) (book_id : Z) : M (bool * string) :=
  if invalid_patron_id patron_id then ret (false, msg_invalid_patron)
  else
    let* book := get_book_by_id book_id in
    match book with
    | None => ret (false, msg_book_not_found)
    | Some book =>
        let* borrow_record := query (select_open_record patron_id book_id) in
        match borrow_record with
        | None => ret (false, msg_no_active_record)
        | Some _ =>
            let* return_date := datetime_now in
            let* update_success :=
              update_borrow_record_return_date patron_id book_id return_date in
            if negb update_success then ret (false, msg_db_return_date)
            else
              let* availability_success := update_book_availability book_id 1 in
              if negb availability_success then ret (false, msg_db_availability)
              else
                let* late_fee_info := calculate_late_fee_for_book patron_id book_id in
                let message :=
                  "Successfully returned " ++ PyStr.dquote ++ title book
                  ++ PyStr.dquote ++ "." in
                if Money.gtb (fee_amount late_fee_info) 0 then
                  ret (true, message ++ " Late fee: $"
                             ++ Money.format_2f (fee_amount late_fee_info) ++ " ("
                             ++ PyStr.of_int (days_overdue late_fee_info)
                             ++ " days overdue).")
                else ret (true, message ++ " No late fees.")
        end
    end.

(** *** Search *)

Module Sql.

(** [LOWER(c)]: only the letters A to Z change. *)
Definition lower_char (c : ascii) : ascii :=
  let n := N_of_ascii c in
  if ((65 <=? n) && (n <=? 90))%N then ascii_of_N (n + 32) else c.

Fixpoint lower (s : string) : string :=
  match s with
  | EmptyString => EmptyString
  | String c s' => String (lower_char c) (lower s')
  end.

(** [text LIKE pat]: [%] stands for any run of characters, [_] for any one
    character, and letters A to Z match without regard to case. *)
Fixpoint like (pat : string) : string -> bool :=
  match pat with
  | EmptyString =>
      fun text => match text with EmptyString => true | String _ _ => false end
  | String c pat' =>
      if Ascii.eqb c "%"%char then
        fix any (text : string) : bool :=
          like pat' text
          || match text with EmptyString => false | String _ text' => any text' end
      else if Ascii.eqb c "_"%char then
        fun text =>
          match text with EmptyString => false | String _ text' => like pat' text' end
      else
        fun text =>
          match text with
          | EmptyString => false
          | String d text' => Ascii.eqb (lower_char c) (lower_char d) && like pat' text'
          end
  end.

(** Order of the BINARY collation. *)
Definition str_leb (a b : string) : bool := String.leb a b.

Fixpoint insert_by_title (r : Z * Book) (l : list (Z * Book)) : list (Z * Book) :=
  match l with
  | [] => [r]
  | r' :: l' =>
      if str_leb (title (snd r)) (title (snd r')) then r :: l
      else r' :: insert_by_title r l'
  end.

(** [ORDER BY title] *)
Definition order_by_title (l : list (Z * Book)) : list (Z * Book) :=
  foldr insert_by_title [] l.

(** [SELECT * FROM books WHERE cond ORDER BY title], [fetchall()]. *)
Definition select_books (cond : Book -> bool) (d : DB) : list (Z * Book) :=
  order_by_title (List.filter (fun r => cond (snd r)) (map_to_list (books d))).

End Sql.

Definition valid_types : list string := ["title"; "author"; "isbn"].

(** [search_books_in_catalog(search_term, search_type)]; a row of the result
    is the id of a book and its columns. *)
Definition search_books_in_catalog (search_term search_type : string)
  : M (list (Z * Book)) :=
  if negb (PyStr.truthy search_term) then ret []
  else if negb (existsb (String.eqb search_type) valid_types) then ret []
  else if String.eqb search_type "isbn" then
    query (Sql.select_books (fun b => String.eqb (isbn b) search_term))
  else if String.eqb search_type "title" then
    query (Sql.select_books (fun b =>
      Sql.like (Sql.lower ("%" ++ search_term ++ "%")) (Sql.lower (title b))))
  else if String.eqb search_type "author" then
    query (Sql.select_books (fun b =>
      Sql.like (Sql.lower ("%" ++ search_term ++ "%")) (Sql.lower (author b))))
  else ret [].

(** ** Settling fees through the payment gateway *)

(** What a call of the gateway comes to: it returns, or it raises a fault
    carrying a text. *)
Inductive GatewayOutcome (A : Type) : Type :=
| Returned (a : A)
| Raised (fault : string).
Arguments Returned {A} a.
Arguments Raised {A} fault.

(** The payment capability: [process_payment(patron_id, amount, description)]
    gives [(ok, transaction_id, message)] and [refund_payment(transaction_id,
    amount)] gives [(ok, message)]. *)
Record PaymentGateway := mkGateway {
  process_payment : string -> Q -> string -> GatewayOutcome (bool * option string * string);
  refund_payment : string -> Q -> GatewayOutcome (bool * string)
}.

(** A call that reached the gateway, with its arguments. *)
Inductive GatewayCall : Type :=
| ProcessPayment (patron : string) (amount : Q) (description : string)
| RefundPayment (transaction_id : string) (amount : Q).

(** A fee dictionary as the payment code receives it: any key may be
    absent. *)
Record FeeDict := mkFeeDict {
  fd_fee_amount : option Q;
  fd_days_overdue : option Z;
  fd_status : option string
}.

Definition fee_dict (a : FeeAssessment) : FeeDict :=
  mkFeeDict (Some (fee_amount a)) (Some (days_overdue a)) (Some (status a)).

Section Payment.

(** The two collaborators of the payment code, which the tests replace by
    stubs: the fee calculation and the book lookup. *)
Variable calculate : string -> Z -> M (option FeeDict).
Variable lookup : Z -> M (option Book).

(** Modelled from the spec: [pay_late_fees] of [services/library_service.py]
    is not among the sources, only its tests are.  Section 4.5: reject an
    invalid patron id; compute the fee, and fail when the result is missing
    or lacks a fee amount; fail when the fee amount is 0; look up the
    book and fail when it is not found; otherwise call the gateway once and
    report success, the decline or the fault.  The result is paired with the
    calls that reached the gateway. *)
Definition pay_late_fees_with (patron_id : string) (book_id : Z) (gateway : PaymentGateway)
  : M ((bool * string * option string) * list GatewayCall) :=
  if invalid_patron_id patron_id then ret ((false, "Invalid patron ID", None), [])
  else
    let* fee_info := calculate patron_id book_id in
    match fee_info with
    | None => ret ((false, "Unable to calculate late fees", None), [])
    | Some fee_info =>
        match fd_fee_amount fee_info with
        | None => ret ((false, "Unable to calculate late fees", None), [])
        | Some fee_amount =>
            if Qeq_bool fee_amount 0 then ret ((false, "No late fees to pay", None), [])
            else
              let* book := lookup book_id in
              match book with
              | None => ret ((false, "Book not found", None), [])
              | Some book =>
                  let description := "Late fees for '" ++ title book ++ "'" in
                  let call := ProcessPayment patron_id fee_amount description in
                  match process_payment gateway patron_id fee_amount description with
                  | Returned (true, transaction_id, _) =>
                      ret ((true, "Payment successful!", transaction_id), [call])
                  | Returned (false, _, message) =>
                      ret ((false, "Payment failed: " ++ message, None), [call])
                  | Raised fault =>
                      ret ((false, "Payment processing error: " ++ fault, None), [call])
                  end
              end
        end
    end.

End Payment.

(** The payment code with the collaborators of the service itself. *)
Definition pay_late_fees : string -> Z -> PaymentGateway
  -> M ((bool * string * option string) * list GatewayCall) :=
  pay_late_fees_with
    (fun p b => let* a := calculate_late_fee_for_book p b in ret (Some (fee_dict a)))
    get_book_by_id.

(** Modelled from the spec: [refund_late_fee_payment] of
    [services/library_service.py] is not among the sources, only its tests
    are.  Section 4.5: reject an empty transaction id or one without the
    prefix of a payment transaction ([txn_] in the tests); reject an amount
    that is not above 0; reject an amount above 15.00; otherwise call the
    gateway once.  On a normal return the gateway's flag and message are the
    result, for success and for a reported failure alike; a fault is reported
    with its text.  The result is paired with the calls that reached the
    gateway. *)
Definition refund_late_fee_payment (transaction_id : string) (amount : Q)
  (gateway : PaymentGateway) : (bool * string) * list GatewayCall :=
  if negb (PyStr.truthy transaction_id) || negb (PyStr.startswith "txn_" transaction_id)
  then ((false, "Invalid transaction ID"), [])
  else if Qle_bool amount 0 then ((false, "Refund amount must be greater than 0"), [])
  else if Money.gtb amount 15.00 then ((false, "Refund amount exceeds maximum late fee"), [])
  else
    let call := RefundPayment transaction_id amount in
    match refund_payment gateway transaction_id amount with
    | Returned (true, message) => ((true, message), [call])
    | Returned (false, message) => ((false, message), [call])
    | Raised fault => ((false, "Refund processing error: " ++ fault), [call])
    end.

(** ** Notions used to state the properties *)

(** The instant a record is assessed against: its return date when it is
    closed, otherwise what the clock reads next. *)
Definition reference_instant (r : BorrowRecord) (w : World) : Z :=
  match return_date r with
  | Some t => t
  | None => clock w (ticks w)
  end.

(** The fee beyond the seventh overdue day, with its ceiling. *)
Definition tiered_fee (d : Z) : Q := Qmin (3.50 + inject_Z (d - 7) * 1.00) 15.00.

(** Whether the fee calculation for a pair consults the clock: it does when
    the latest record of the pair is open. *)
Definition reads_clock (p : string) (b : Z) (d : DB) : bool :=
  match select_latest_record p b d with
  | Some r => is_open r
  | None => false
  end.

(** The number of open records a patron holds, over all books. *)
Definition open_loans (p : string) (d : DB) : Z :=
  Z.of_nat (length (List.filter
    (fun r => String.eqb (patron_id r) p && is_open r) (borrow_records d))).

(** The number of open records for a book, over all patrons. *)
Definition open_for_book (b : Z) (l : list BorrowRecord) : Z :=
  Z.of_nat (length (List.filter (fun r => (book_id r =? b) && is_open r) l)).

(** A request to the borrowing engine. *)
Inductive Op : Type :=
| Borrow (p : string) (b : Z)
| Return (p : string) (b : Z).

Definition exec (o : Op) : M (bool * string) :=
  match o with
  | Borrow p b => borrow_book_by_patron p b
  | Return p b => return_book_by_patron p b
  end.

(** Runs requests one after the other and keeps each with its result. *)
Fixpoint run (ops : list Op) : M (list (Op * (bool * string))) :=
  match ops with
  | [] => ret []
  | o :: ops' =>
      let* r := exec o in
      let* rs := run ops' in
      ret ((o, r) :: rs)
  end.

(** A store as a series of added books leaves it: no borrow record, and
    every book with a positive number of copies, all of them available. *)
Definition freshly_added (d : DB) : Prop :=
  borrow_records d = []
  /\ forall id b, books d !! id = Some b ->
       0 < total_copies b /\ available_copies b = total_copies b.

Definition copies_in_range (d : DB) : Prop :=
  forall id b, books d !! id = Some b -> 0 <= available_copies b <= total_copies b.

Definition copies_non_negative (d : DB) : Prop :=
  forall id b, books d !! id = Some b -> 0 <= available_copies b.

(** A borrow whose record was inserted and whose decrement of the available
    copies then failed: the borrow that reports the error of the availability
    update. *)
Definition lost_decrement (step : Op * (bool * string)) : bool :=
  match step with
  | (Borrow _ _, (false, m)) => String.eqb m msg_db_availability
  | _ => false
  end.

(** The copies of every book are accounted for: those on the shelf are not
    negative in number and, with the open loans of the book, do not exceed the
    total. *)
Definition stock_accounted (d : DB) : Prop :=
  forall id b, books d !! id = Some b ->
    0 <= available_copies b
    /\ available_copies b + open_for_book id (borrow_records d) <= total_copies b.

Definition unique_isbns (d : DB) : Prop :=
  forall id1 id2 b1 b2,
    books d !! id1 = Some b1 -> books d !! id2 = Some b2 ->
    isbn b1 = isbn b2 -> id1 = id2.

(** A transaction id the refund accepts: not empty and with the prefix of a
    payment transaction. *)
Definition valid_transaction_id (t : string) : bool :=
  PyStr.truthy t && PyStr.startswith "txn_" t.

(** The fee amount the payment code works with, when the calculation gives
    one. *)
Definition fee_found (calculate : string -> Z -> M (option FeeDict))
  (p : string) (b : Z) (w : World) : option Q :=
  match fst (calculate p b w) with
  | Some d => fd_fee_amount d
  | None => None
  end.

(** What the book lookup gives, run after the calculation. *)
Definition book_found (calculate : string -> Z -> M (option FeeDict))
  (lookup : Z -> M (option Book)) (p : string) (b : Z) (w : World) : option Book :=
  fst (lookup b (snd (calculate p b w))).

(** The four rejections of the payment code that come before the gateway. *)
Definition pay_rejections : list string :=
  ["Invalid patron ID"; "Unable to calculate late fees"; "No late fees to pay";
   "Book not found"].

(** *** Sample stores and worlds *)

Definition day (n : Z) : Z := PyTime.timedelta_days n.

Definition sample_book (available : Z) : Book :=
  mkBook "Test Book" "Test Author" "1234567890123" 1 available.

(** The store before any book is added. *)
Definition db_empty : DB := mkDB ∅ [].

(** One book with its single copy on the shelf. *)
Definition db_one_book : DB := mkDB {[ 1 := sample_book 1 ]} [].

(** The copy is lent to patron 123456 since day 0 and due on day 14. *)
Definition db_open_loan : DB :=
  mkDB {[ 1 := sample_book 0 ]} [mkBorrowRecord "123456" 1 (day 0) (day 14) None].

(** The same loan, returned on day 20. *)
Definition db_closed_loan : DB :=
  mkDB {[ 1 := sample_book 1 ]}
       [mkBorrowRecord "123456" 1 (day 0) (day 14) (Some (day 20))].

(** A world whose clock always reads [now] and whose writes all succeed. *)
Definition world_at (d : DB) (now : Z) : World :=
  mkWorld d (fun _ => now) 0 (fun _ => true) 0.

(** A world whose clock always reads day 1 and in which exactly the write
    number [n] fails. *)
Definition world_failing (d : DB) (n : nat) : World :=
  mkWorld d (fun _ => day 1) 0 (fun k => negb (k =? n)%nat) 0.

(** A gateway that accepts everything, one that declines and one that
    raises. *)
Definition gateway_accepting : PaymentGateway :=
  mkGateway (fun _ _ _ =>
               Returned (true, Some "txn_123456_success", "Payment processed successfully"))
            (fun _ _ => Returned (true, "Refund processed successfully")).

Definition gateway_declining : PaymentGateway :=
  mkGateway (fun _ _ _ => Returned (false, None, "Insufficient funds"))
            (fun _ _ => Returned (false, "Transaction already refunded")).

Definition gateway_raising : PaymentGateway :=
  mkGateway (fun _ _ _ => Raised "Network timeout") (fun _ _ => Raised "Connection refused").





(** Six books of one copy each; patron 123456 holds the first [n] of them
    since day 0. *)
Definition shelf_book (k : Z) (available : Z) : Book :=
  mkBook "Book" "Author" ("123456789012" ++ PyStr.of_int k) 1 available.

Definition db_with_loans (n : Z) : DB :=
  mkDB (list_to_map
          (map (fun k => (k, shelf_book k (if k <=? n then 0 else 1))) [1; 2; 3; 4; 5; 6]))
       (map (fun k => mkBorrowRecord "123456" k (day 0) (day 14) None)
            (List.filter (fun k => k <=? n) [1; 2; 3; 4; 5; 6])).

(** Stubs for the collaborators of the payment code, as the tests set them
    up: a fixed fee dictionary (or none) and a fixed book (or none). *)
Definition stub_fee (r : option FeeDict) : string -> Z -> M (option FeeDict) :=
  fun _ _ => ret r.

Definition stub_book (r : option Book) : Z -> M (option Book) := fun _ => ret r.

Definition fee_of (q : Q) : FeeDict := mkFeeDict (Some q) (Some 5) (Some "Overdue").

(** *** Requests to the whole service *)

(** A request that adds a book, or one to the borrowing engine. *)
Inductive Request : Type :=
| AddBook (title author isbn : string) (total_copies : Z)
| Engine (o : Op).

Definition serve (q : Request) : M (bool * string) :=
  match q with
  | AddBook t a i n => add_book_to_catalog t a i n
  | Engine o => exec o
  end.

(** Serves requests one after the other and keeps each with its result. *)
Fixpoint serve_all (qs : list Request) : M (list (Request * (bool * string))) :=
  match qs with
  | [] => ret []
  | q :: qs' =>
      let* r := serve q in
      let* rs := serve_all qs' in
      ret ((q, r) :: rs)
  end.

(** [lost_decrement] on the requests of the whole service. *)
Definition request_lost_decrement (step : Request * (bool * string)) : bool :=
  match step with
  | (Engine o, r) => lost_decrement (o, r)
  | _ => false
  end.

(** The constraints on the columns of a book that [add_book_to_catalog]
    checks before it stores one. *)
Definition book_fields_ok (b : Book) : Prop :=
  title b <> EmptyString /\ (PyStr.len (title b) <= 200)%nat
  /\ author b <> EmptyString /\ (PyStr.len (author b) <= 100)%nat
  /\ PyStr.len (isbn b) = 13%nat
  /\ 0 < total_copies b.

(** What holds of a borrow record the engine created: a valid patron id, a
    book of the catalog, and a due date 14 days after the borrow date. *)
Definition record_ok (d : DB) (r : BorrowRecord) : Prop :=
  invalid_patron_id (patron_id r) = false
  /\ is_Some (books d !! book_id r)
  /\ due_date r = borrow_date r + PyTime.timedelta_days 14.

(** The store is well formed: the books satisfy the constraints on their
    columns, no two have the same ISBN, none has a negative number of
    available copies, and the records are as the engine creates them. *)
Definition store_ok (d : DB) : Prop :=
  (forall id b, books d !! id = Some b -> book_fields_ok b /\ 0 <= available_copies b)
  /\ unique_isbns d
  /\ Forall (record_ok d) (borrow_records d).

(** The arguments of an add pass every check on the fields. *)
Definition add_fields_ok (t a i : string) (n : Z) : Prop :=
  PyStr.strip t <> EmptyString /\ (PyStr.len (PyStr.strip t) <= 200)%nat
  /\ PyStr.strip a <> EmptyString /\ (PyStr.len (PyStr.strip a) <= 100)%nat
  /\ PyStr.len i = 13%nat
  /\ 0 < n.

Definition isbn_in_use (i : string) (d : DB) : Prop :=
  exists k b, books d !! k = Some b /\ isbn b = i.

(** The world after a book was stored. *)
Definition world_with_book (w : World) (t a i : string) (n : Z) : World :=
  mkWorld (mkDB (<[next_book_id (books (db w))
                  := mkBook (PyStr.strip t) (PyStr.strip a) i n n]> (books (db w)))
                (borrow_records (db w)))
          (clock w) (ticks w) (disk w) (S (writes w)).

(** *** What a request to the engine can do to the store *)

(** The record a borrow inserts. *)
Definition new_record (w : World) (p : string) (bid : Z) : BorrowRecord :=
  mkBorrowRecord p bid (clock w (ticks w))
                 (clock w (ticks w) + PyTime.timedelta_days 14) None.

(** The books after the available copies of one changed by [delta]. *)
Definition books_adjusted (d : DB) (bid : Z) (delta : Z) : gmap Z Book :=
  alter (fun b => with_available (available_copies b + delta) b) bid (books d).

(** The records after a return closed those of a pair. *)
Definition closed_records (w : World) (p : string) (bid : Z) : list BorrowRecord :=
  map (close_record p bid (clock w (ticks w))) (borrow_records (db w)).

(** The stores a request to the engine can leave: the store as it was; after
    a borrow that passed its checks, the store with the new record, the copy
    taken or not; after a return that passed its checks, the store with the
    records of the pair closed, the copy put back or not. *)
Inductive engine_effect (w : World) : Op -> DB -> Prop :=
| effect_none (o : Op) : engine_effect w o (db w)
| effect_borrow (p : string) (bid : Z) (bk : Book) (taken : bool) :
    invalid_patron_id p = false ->
    books (db w) !! bid = Some bk ->
    0 < available_copies bk ->
    open_loans p (db w) < 5 ->
    engine_effect w (Borrow p bid)
      (mkDB (if taken then books_adjusted (db w) bid (-1) else books (db w))
            (borrow_records (db w) ++ [new_record w p bid]))
| effect_return (p : string) (bid : Z) (bk : Book) (r : BorrowRecord) (put_back : bool) :
    invalid_patron_id p = false ->
    books (db w) !! bid = Some bk ->
    select_open_record p bid (db w) = Some r ->
    engine_effect w (Return p bid)
      (mkDB (if put_back then books_adjusted (db w) bid 1 else books (db w))
            (closed_records w p bid)).

(** *** How the store may move *)

(** Two books agree on every column but the available copies. *)
Definition same_columns (b b' : Book) : Prop :=
  title b' = title b /\ author b' = author b /\ isbn b' = isbn b
  /\ total_copies b' = total_copies b.

(** Every book of [m] is in [m'] under its key, with the same columns but the
    available copies. *)
Definition catalog_extends (m m' : gmap Z Book) : Prop :=
  forall k b, m !! k = Some b -> exists b', m' !! k = Some b' /\ same_columns b b'.

(** A record is as it was, or it was open and is now closed. *)
Definition record_advances (r r' : BorrowRecord) : Prop :=
  patron_id r' = patron_id r /\ book_id r' = book_id r
  /\ borrow_date r' = borrow_date r /\ due_date r' = due_date r
  /\ (return_date r' = return_date r \/ return_date r = None).

(** The records of [l] are all in [l'], in their place, each as it was or
    closed since; [l'] may have more records after them. *)
Definition records_kept (l l' : list BorrowRecord) : Prop :=
  exists l1 l2 : list BorrowRecord, l' = (l1 ++ l2)%list /\ Forall2 record_advances l l1.

(** *** Fees by overdue days *)

(** The fee the calculation charges for [d] overdue days, [d] positive: the
    two rates, the ceiling, the rounding. *)
Definition fee_for_days (d : Z) : Q :=
  let fee :=
    if d <=? 7 then (inject_Z d * 0.50)%Q
    else ((7 * 0.50) + (inject_Z (d - 7) * 1.00))%Q in
  Money.round2 (if Money.gtb fee 15.00 then 15.00%Q else fee).

(** The whole days by which the record a calculation assesses is overdue. *)
Definition days_late (r : BorrowRecord) (w : World) : Z :=
  PyTime.days_between (reference_instant r w) (due_date r).

(** The text of a successful borrow and of a successful return. *)
Definition borrowed_message (bk : Book) (due : Z) : string :=
  "Successfully borrowed " ++ PyStr.dquote ++ title bk ++ PyStr.dquote
  ++ ". Due date: " ++ PyTime.strftime_ymd due ++ ".".

Definition returned_message (bk : Book) (d : Z) : string :=
  let message :=
    "Successfully returned " ++ PyStr.dquote ++ title bk ++ PyStr.dquote ++ "." in
  if d <=? 0 then message ++ " No late fees."
  else message ++ " Late fee: $" ++ Money.format_2f (fee_for_days d) ++ " ("
               ++ PyStr.of_int d ++ " days overdue).".

(** The fee in cents for a count of overdue days: nothing when the count is
    not positive, 50 a day up to 7 days, 100 a day after, 1500 at most. *)
Definition fee_cents (d : Z) : Z :=
  if d <=? 0 then 0
  else Z.min (if d <=? 7 then 50 * d else 350 + 100 * (d - 7)) 1500.

(** The text of a successful return, from the assessment made after it. *)
Definition return_text (bk : Book) (a : FeeAssessment) : string :=
  let message :=
    "Successfully returned " ++ PyStr.dquote ++ title bk ++ PyStr.dquote ++ "." in
  if Money.gtb (fee_amount a) 0 then
    message ++ " Late fee: $" ++ Money.format_2f (fee_amount a) ++ " ("
            ++ PyStr.of_int (days_overdue a) ++ " days overdue)."
  else message ++ " No late fees.".

(** The world after the two writes of a return went through. *)
Definition world_returned (w : World) (p : string) (bid : Z) : World :=
  mkWorld (mkDB (books_adjusted (db w) bid 1) (closed_records w p bid))
          (clock w) (S (ticks w)) (disk w) (S (S (writes w))).

(** *** Search *)



(** Rows in the order of their titles. *)
Definition sorted_by_title (l : list (Z * Book)) : Prop :=
  Sorted (fun r r' => Sql.str_leb (title (snd r)) (title (snd r')) = true) l.

(** ** The patron status report of [library_service.py] *)

(** A row of [get_patron_borrowed_books]: a book the patron holds, with the
    dates of the loan. *)
Record BorrowedBook := mkBorrowedBook {
  bb_book_id : Z;
  bb_title : string;
  bb_author : string;
  bb_borrow_date : Z;
  bb_due_date : Z;
  bb_is_overdue : bool
}.

(** An entry of [currently_borrowed]. *)
Record BorrowedEntry := mkBorrowedEntry {
  be_book_id : Z;
  be_title : string;
  be_author : string;
  be_borrow_date : string;
  be_due_date : string;
  be_is_overdue : bool;
  be_late_fee : Q
}.

(** An entry of [borrowing_history]; [he_due_date] is the stored text of the
    due date, kept here as the instant it denotes. *)
Record HistoryEntry := mkHistoryEntry {
  he_book_id : Z;
  he_title : string;
  he_author : string;
  he_borrow_date : string;
  he_due_date : Z;
  he_return_date : option string;
  he_status : string
}.

(** The report; the empty dictionary of an invalid patron id is [None]. *)
Record StatusReport := mkStatusReport {
  currently_borrowed : list BorrowedEntry;
  total_late_fees : Q;
  books_borrowed_count : nat;
  borrowing_history : list HistoryEntry
}.

(** Puts a row of the history before the first row that was not borrowed
    later. *)
Fixpoint insert_newest_first (x : BorrowRecord * Book) (l : list (BorrowRecord * Book))
  : list (BorrowRecord * Book) :=
  match l with
  | [] => [x]
  | y :: l' =>
      if borrow_date (fst y) <=? borrow_date (fst x) then x :: l
      else y :: insert_newest_first x l'
  end.

(** [SELECT br.*, b.title, b.author FROM borrow_records br JOIN books b ON
    br.book_id = b.id WHERE br.patron_id = ? ORDER BY br.borrow_date DESC],
    [fetchall()]. *)
Definition select_history (p : string) (d : DB) : list (BorrowRecord * Book) :=
  foldr insert_newest_first []
    (flat_map (fun r => match books d !! book_id r with
                        | Some b => [(r, b)]
                        | None => []
                        end)
              (List.filter (fun r => String.eqb (patron_id r) p) (borrow_records d))).

(** The entry of the history made from a row. *)
Definition history_entry (row : BorrowRecord * Book) : HistoryEntry :=
  let (record, book) := row in
  mkHistoryEntry (book_id record) (title book) (author book)
    (PyTime.strftime_ymd (borrow_date record))
    (due_date record)
    (match return_date record with
     | Some t => Some (PyTime.strftime_ymd t)
     | None => None
     end)
    (match return_date record with Some _ => "Returned" | None => "Borrowed" end).

(** The loop over the books the patron holds: the fee of each is calculated,
    added to the total, and kept in the entry appended for the book. *)
Fixpoint borrowed_loop (patron_id : string) (currently_borrowed : list BorrowedBook)
  (borrowed_books_list : list BorrowedEntry) (total_late_fees : Q)
  : M (list BorrowedEntry * Q) :=
  match currently_borrowed with
  | [] => ret (borrowed_books_list, total_late_fees)
  | book :: rest =>
      let* late_fee_info := calculate_late_fee_for_book patron_id (bb_book_id book) in
      let fee := fee_amount late_fee_info in
      borrowed_loop patron_id rest
        (borrowed_books_list ++
           [mkBorrowedEntry (bb_book_id book) (bb_title book) (bb_author book)
              (PyTime.strftime_ymd (bb_borrow_date book))
              (PyTime.strftime_ymd (bb_due_date book))
              (bb_is_overdue book) fee])
        (total_late_fees + fee)%Q
  end.

Section Report.

(** [get_patron_borrowed_books] of [database.py] is not among the sources; the
    report takes it as it comes. *)
Variable get_patron_borrowed_books : string -> M (list BorrowedBook).

(** [get_patron_status_report(patron_id)] *)
Definition get_patron_status_report (patron_id : string) : M (option StatusReport) :=
  if invalid_patron_id patron_id then ret None
  else
    let* currently_borrowed := get_patron_borrowed_books patron_id in
    let* looped := borrowed_loop patron_id currently_borrowed [] 0.00%Q in
    let* history_records := query (select_history patron_id) in
    ret (Some (mkStatusReport (fst looped) (Money.round2 (snd looped))
                              (length (fst looped))
                              (map history_entry history_records))).

End Report.

(** The sum of the fees of the entries. *)
Definition sum_late_fees (l : list BorrowedEntry) : Q :=
  foldr (fun e acc => (be_late_fee e + acc)%Q) 0%Q l.

(** Rows from the newest borrow to the oldest. *)
Definition newest_first (l : list (BorrowRecord * Book)) : Prop :=
  Sorted (fun x y => borrow_date (fst y) <= borrow_date (fst x)) l.

(** A stub of the accessor, as the tests set it up. *)
Definition stub_borrowed (l : list BorrowedBook) : string -> M (list BorrowedBook) :=
  fun _ => ret l.

(** Patron 123456 holds book 1 (due day 14) and book 2 (due day 30); book 3
    was returned on day 9. *)
Definition db_three_loans : DB :=
  mkDB (list_to_map [(1, sample_book 0); (2, shelf_book 2 0); (3, shelf_book 3 1)])
       [mkBorrowRecord "123456" 1 (day 0) (day 14) None;
        mkBorrowRecord "123456" 3 (day 2) (day 16) (Some (day 9));
        mkBorrowRecord "654321" 3 (day 10) (day 24) None;
        mkBorrowRecord "123456" 2 (day 16) (day 30) None].

Definition held_by_123456 : list BorrowedBook :=
  [mkBorrowedBook 1 "Test Book" "Test Author" (day 0) (day 14) true;
   mkBorrowedBook 2 "Book" "Author" (day 16) (day 30) false].

(** * Properties *)

(** ** The model at work *)

(** Six decimal digits make a valid patron id; a letter or a wrong length
    does not. *)
Lemma six_digits_valid (c1 c2 c3 c4 c5 c6 : ascii) :
  forallb (fun c => (48 <=? N_of_ascii c)%N && (N_of_ascii c <=? 57)%N)
          [c1; c2; c3; c4; c5; c6] = true ->
  invalid_patron_id
    (String c1 (String c2 (String c3 (String c4 (String c5 (String c6 EmptyString))))))
  = false.
Proof.
  cbn [forallb]. intros H.
  repeat (apply andb_prop in H; destruct H as [?H H]).
  unfold invalid_patron_id, PyStr.isdigit, PyStr.char_isdigit, PyStr.code.
  cbn [PyStr.truthy PyStr.all_chars PyStr.len String.length Nat.eqb negb orb andb].
  repeat match goal with E : _ = true |- _ => rewrite E; clear E end.
  reflexivity.
Qed.

Example patron_ids :
  map invalid_patron_id ["123456"; "12345"; "1234567"; "12A456"; EmptyString]
  = [false; true; true; true; true].
Proof. reflexivity. Qed.

(** The key of a new book is not in use. *)
Lemma next_book_id_fresh (m : gmap Z Book) : m !! next_book_id m = None.
Proof.
  destruct (m !! next_book_id m) as [b|] eqn:E; [exfalso|reflexivity].
  apply elem_of_map_to_list, list_elem_of_In in E.
  apply (in_map fst) in E. cbn [fst] in E. unfold next_book_id in E.
  assert (Hmax : forall (l : list Z) (k : Z), In k l -> k <= foldr Z.max 0 l).
  { induction l as [|a l IH]; intros k []; cbn [foldr]; [subst; lia|].
    specialize (IH k H). lia. }
  apply Hmax in E. lia.
Qed.

(** The scenario of the specification, section 8: one copy, lent, refused to
    a second patron, returned before it is due. *)
Example one_copy_scenario :
  let w0 := world_at db_empty (day 1) in
  let '(r1, w1) := add_book_to_catalog "Test Book" "Test Author" "1234567890123" 1 w0 in
  let '(r2, w2) := borrow_book_by_patron "123456" 1 w1 in
  let '(r3, w3) := borrow_book_by_patron "654321" 1 w2 in
  let '(r4, w4) := return_book_by_patron "123456" 1 w3 in
  fst r1 = true
  /\ r2 = (true, "Successfully borrowed " ++ PyStr.dquote ++ "Test Book" ++ PyStr.dquote
                 ++ ". Due date: 1970-01-16.")
  /\ r3 = (false, msg_not_available)
  /\ r4 = (true, "Successfully returned " ++ PyStr.dquote ++ "Test Book" ++ PyStr.dquote
                 ++ ". No late fees.")
  /\ db w4 = mkDB {[ 1 := sample_book 1 ]}
                  [mkBorrowRecord "123456" 1 (day 1) (day 15) (Some (day 1))].
Proof. vm_compute. repeat split. Qed.

(** The fees of the tests: 5, 10, 11, 36 and 60 overdue days, and a loan that
    is not due yet. *)
Example late_fee_samples :
  map (fun n => let a := fst (calculate_late_fee_for_book "123456" 1
                                (world_at db_open_loan (day (14 + n)))) in
                (Qred (fee_amount a), days_overdue a, status a))
      [5; 10; 11; 36; 60; -2]
  = [((5 # 2)%Q, 5, "Overdue"); ((13 # 2)%Q, 10, "Overdue"); ((15 # 2)%Q, 11, "Overdue");
     (15%Q, 36, "Overdue"); (15%Q, 60, "Overdue"); (0%Q, 0, "Not overdue")].
Proof. vm_compute. reflexivity. Qed.

(** Searches by title and author match a part of the text without regard to
    case; the rows come ordered by title. *)
Example search_samples :
  let w := world_at (mkDB (list_to_map
             [(1, mkBook "Learning Python" "Jane Doe" "1234567890123" 2 2);
              (2, mkBook "Book Two" "John Roe" "9876543210123" 1 1)]) []) (day 1) in
  map fst (fst (search_books_in_catalog "o" "title" w)) = [2; 1]
  /\ map fst (fst (search_books_in_catalog "PYTHON" "title" w)) = [1]
  /\ map fst (fst (search_books_in_catalog "doe" "author" w)) = [1]
  /\ map fst (fst (search_books_in_catalog "987654321012" "isbn" w)) = []
  /\ map fst (fst (search_books_in_catalog EmptyString "title" w)) = []
  /\ map fst (fst (search_books_in_catalog "something" "publisher" w)) = [].
Proof. vm_compute. repeat split. Qed.

(** The payment and refund scenarios of the tests: accepted, declined and
    faulty gateway, and the rejections that precede the gateway. *)
Example payment_samples :
  let w := world_at db_one_book (day 1) in
  let book := stub_book (Some (sample_book 1)) in
  fst (pay_late_fees_with (stub_fee (Some (fee_of 5.50))) book "123456" 1 gateway_accepting w)
    = ((true, "Payment successful!", Some "txn_123456_success"),
       [ProcessPayment "123456" 5.50 "Late fees for 'Test Book'"])
  /\ fst (pay_late_fees_with (stub_fee (Some (fee_of 10.00))) book "654321" 1
            gateway_declining w)
    = ((false, "Payment failed: Insufficient funds", None),
       [ProcessPayment "654321" 10.00 "Late fees for 'Test Book'"])
  /\ fst (pay_late_fees_with (stub_fee (Some (fee_of 12.50))) book "123456" 1
            gateway_raising w)
    = ((false, "Payment processing error: Network timeout", None),
       [ProcessPayment "123456" 12.50 "Late fees for 'Test Book'"])
  /\ fst (pay_late_fees_with (stub_fee None) book "123456" 1 gateway_accepting w)
    = ((false, "Unable to calculate late fees", None), [])
  /\ fst (pay_late_fees "123456" 1 gateway_accepting w)
    = ((false, "No late fees to pay", None), [])
  /\ fst (pay_late_fees "123456" 1 gateway_accepting (world_at db_open_loan (day 17)))
    = ((true, "Payment successful!", Some "txn_123456_success"),
       [ProcessPayment "123456" (Money.round2 (inject_Z 3 * 0.50)) "Late fees for 'Test Book'"]).
Proof. vm_compute. repeat split. Qed.

Example refund_samples :
  refund_late_fee_payment "txn_123456_test" 5.50 gateway_accepting
    = ((true, "Refund processed successfully"), [RefundPayment "txn_123456_test" 5.50])
  /\ refund_late_fee_payment "txn_123456_test" 8.00 gateway_raising
    = ((false, "Refund processing error: Connection refused"),
       [RefundPayment "txn_123456_test" 8.00])
  /\ refund_late_fee_payment "invalid_123456" 5.00 gateway_accepting
    = ((false, "Invalid transaction ID"), [])
  /\ refund_late_fee_payment EmptyString 5.00 gateway_accepting
    = ((false, "Invalid transaction ID"), [])
  /\ refund_late_fee_payment "txn_123456_test" 20.00 gateway_accepting
    = ((false, "Refund amount exceeds maximum late fee"), []).
Proof. vm_compute. repeat split. Qed.

(** ** Rounding and comparing amounts *)

Lemma round_half_even_comp (q r : Q) : (q == r)%Q -> Money.round_half_even q = Money.round_half_even r.
Proof.
  intros E. unfold Money.round_half_even.
  rewrite (Qfloor_comp _ _ E).
  assert (E' : (q - inject_Z (Qfloor r) == r - inject_Z (Qfloor r))%Q) by (rewrite E; reflexivity).
  rewrite (Qcompare_comp _ _ E' (1#2) (1#2) (Qeq_refl _)). reflexivity.
Qed.

Lemma round_half_even_Z (c : Z) : Money.round_half_even (inject_Z c) = c.
Proof.
  unfold Money.round_half_even. rewrite Qfloor_Z.
  assert (E : (inject_Z c - inject_Z c == 0)%Q) by ring.
  rewrite (Qcompare_comp _ _ E (1#2) (1#2) (Qeq_refl _)). reflexivity.
Qed.

Lemma round2_cents (q : Q) (c : Z) : (q == inject_Z c / 100)%Q -> (Money.round2 q == q)%Q.
Proof.
  intros E. unfold Money.round2.
  assert (E' : (q * 100 == inject_Z c)%Q) by (rewrite E; field).
  rewrite (round_half_even_comp _ _ E'), round_half_even_Z. symmetry. exact E.
Qed.

Lemma round2_comp (q r : Q) : (q == r)%Q -> (Money.round2 q == Money.round2 r)%Q.
Proof.
  intros E. unfold Money.round2.
  assert (E' : (q * 100 == r * 100)%Q) by (rewrite E; reflexivity).
  rewrite (round_half_even_comp _ _ E'). reflexivity.
Qed.

Lemma gtb_spec (q r : Q) : Money.gtb q r = true <-> (r < q)%Q.
Proof.
  unfold Money.gtb. rewrite negb_true_iff. split.
  - intros H. apply Qnot_le_lt. intros L. apply Qle_bool_iff in L. congruence.
  - intros H. destruct (Qle_bool q r) eqn:E; [|reflexivity].
    apply Qle_bool_iff in E. exfalso. apply (Qlt_not_le _ _ H E).
Qed.

(** ** Late fees *)

Lemma calculate_unfold (w : World) (p : string) (b : Z) (r : BorrowRecord) :
  select_latest_record p b (db w) = Some r ->
  fst (calculate_late_fee_for_book p b w) =
    let d := PyTime.days_between (reference_instant r w) (due_date r) in
    if d <=? 0 then mkFee 0 0 "Not overdue"
    else
      let fee := if d <=? 7 then (inject_Z d * 0.50)%Q
                 else ((7 * 0.50) + (inject_Z (d - 7) * 1.00))%Q in
      mkFee (Money.round2 (if Money.gtb fee 15.00 then 15.00%Q else fee)) d
            (if 0 <? d then "Overdue" else "Not overdue").
Proof.
  intros H. unfold calculate_late_fee_for_book, bind, query, ret, reference_instant.
  rewrite H. destruct (return_date r) as [t|]; cbn [fst snd datetime_now];
    cbv zeta.
  - destruct (_ <=? 0); reflexivity.
  - unfold datetime_now. destruct (_ <=? 0); reflexivity.
Qed.

(** C1. For the record the calculation assesses, with [d] the whole days from
    the due date to the reference instant (the return date of a closed record,
    otherwise the clock): when [d <= 0] the fee is 0.00, the day count 0 and
    the status [Not overdue]; when [1 <= d <= 7] the fee is [d * 0.50] and the
    status [Overdue]; when [d > 7] the fee is [3.50 + (d - 7) * 1.00] capped at
    15.00 and rounded to two decimals (which leaves it as it is), and the
    status is [Overdue]. *)
Theorem late_fee_schedule (w : World) (p : string) (b : Z) (r : BorrowRecord) :
  select_latest_record p b (db w) = Some r ->
  let d := PyTime.days_between (reference_instant r w) (due_date r) in
  let a := fst (calculate_late_fee_for_book p b w) in
  (d <= 0 -> (fee_amount a == 0)%Q /\ days_overdue a = 0 /\ status a = "Not overdue")
  /\ (1 <= d <= 7 ->
      (fee_amount a == inject_Z d * 0.50)%Q /\ days_overdue a = d /\ status a = "Overdue")
  /\ (7 < d ->
      (fee_amount a == Money.round2 (tiered_fee d))%Q
      /\ (fee_amount a == tiered_fee d)%Q
      /\ days_overdue a = d /\ status a = "Overdue").
Proof.
  intros H d a. subst a. rewrite (calculate_unfold _ _ _ _ H). fold d. cbv zeta.
  split; [|split]; intros Hd.
  - apply Z.leb_le in Hd. rewrite Hd. cbn. repeat split; reflexivity.
  - destruct (Z.leb_spec d 0); [lia|].
    destruct (Z.leb_spec d 7); [|lia].
    destruct (Z.ltb_spec 0 d); [|lia].
    cbn [fee_amount days_overdue status]. repeat split.
    assert (L : ~ (15.00 < inject_Z d * 0.50)%Q).
    { unfold Qlt. cbn. lia. }
    destruct (Money.gtb _ _) eqn:G; [apply gtb_spec in G; contradiction|].
    apply (round2_cents _ (50 * d)). unfold Qeq. cbn. lia.
  - destruct (Z.leb_spec d 0); [lia|].
    destruct (Z.leb_spec d 7); [lia|].
    destruct (Z.ltb_spec 0 d); [|lia].
    cbn [fee_amount days_overdue status].
    assert (E : ((if Money.gtb (7 * 0.50 + inject_Z (d - 7) * 1.00) 15.00
                  then 15.00 else 7 * 0.50 + inject_Z (d - 7) * 1.00) == tiered_fee d)%Q).
    { unfold tiered_fee. destruct (Money.gtb _ _) eqn:G.
      - apply gtb_spec in G. rewrite Q.min_r; [reflexivity|].
        apply Qlt_le_weak. revert G. unfold Qlt. cbn. lia.
      - assert (L : ~ (15.00 < 7 * 0.50 + inject_Z (d - 7) * 1.00)%Q).
        { intros L. apply gtb_spec in L. congruence. }
        apply Qnot_lt_le in L. rewrite Q.min_l; [unfold Qeq; cbn; lia|].
        revert L. unfold Qle. cbn. lia. }
    assert (R : (Money.round2 (tiered_fee d) == tiered_fee d)%Q).
    { unfold tiered_fee.
      destruct (Q.min_spec (3.50 + inject_Z (d - 7) * 1.00) 15.00) as [[_ M]|[_ M]].
      - apply (round2_cents _ (350 + 100 * (d - 7))). rewrite M. unfold Qeq. cbn. lia.
      - apply (round2_cents _ 1500). rewrite M. reflexivity. }
    repeat split.
    + apply round2_comp, E.
    + rewrite (round2_comp _ _ E). exact R.
Qed.

Lemma late_fee_schedule_witness :
  (fee_amount (fst (calculate_late_fee_for_book "123456" 1
                      (world_at db_open_loan (day 17)))) == 3 * 0.50)%Q
  /\ (fee_amount (fst (calculate_late_fee_for_book "123456" 1
                      (world_at db_closed_loan (day 90)))) == 3.00)%Q.
Proof.
  split.
  - destruct (late_fee_schedule (world_at db_open_loan (day 17)) "123456" 1
                (mkBorrowRecord "123456" 1 (day 0) (day 14) None) eq_refl)
      as (_ & H & _).
    apply H. vm_compute. split; discriminate.
  - destruct (late_fee_schedule (world_at db_closed_loan (day 90)) "123456" 1
                (mkBorrowRecord "123456" 1 (day 0) (day 14) (Some (day 20))) eq_refl)
      as (_ & H & _).
    apply H. vm_compute. split; discriminate.
Defined.
(** The calculation leaves the store alone, issues no write, and reads the
    clock once exactly when the latest record of the pair is open. *)
Lemma calculate_effects (w : World) (p : string) (b : Z) :
  let w' := snd (calculate_late_fee_for_book p b w) in
  db w' = db w /\ writes w' = writes w /\ disk w' = disk w /\ clock w' = clock w
  /\ ticks w' = (ticks w + if reads_clock p b (db w) then 1 else 0)%nat.
Proof.
  unfold calculate_late_fee_for_book, reads_clock, bind, query, ret, is_open.
  destruct (select_latest_record p b (db w)) as [r|]; cbn [fst snd].
  - destruct (return_date r) as [t|]; unfold datetime_now;
      destruct (_ <=? 0); cbn; repeat split; lia.
  - cbn. repeat split; lia.
Qed.

(** C4, as the code has it.  The calculation takes the patron and the book
    only; it reads the latest record of the pair from the store and, when that
    record is open, the wall clock, once.  It writes nothing.  Two
    evaluations against the same store give the same assessment whenever the
    clock readings agree or the calculation does not consult the clock (the
    latest record is closed or there is none). *)
Theorem late_fee_determined_by_store_and_clock (w1 w2 : World) (p : string) (b : Z) :
  db w1 = db w2 ->
  (reads_clock p b (db w1) = true -> clock w1 (ticks w1) = clock w2 (ticks w2)) ->
  fst (calculate_late_fee_for_book p b w1) = fst (calculate_late_fee_for_book p b w2)
  /\ db (snd (calculate_late_fee_for_book p b w1)) = db w1
  /\ writes (snd (calculate_late_fee_for_book p b w1)) = writes w1
  /\ ticks (snd (calculate_late_fee_for_book p b w1))
     = (ticks w1 + if reads_clock p b (db w1) then 1 else 0)%nat.
Proof.
  intros Hdb Hclock.
  destruct (calculate_effects w1 p b) as (E1 & E2 & _ & _ & E3).
  split; [|auto].
  destruct (select_latest_record p b (db w1)) as [r|] eqn:Hsel.
  - rewrite (calculate_unfold w1 p b r Hsel).
    rewrite Hdb in Hsel. rewrite (calculate_unfold w2 p b r Hsel).
    assert (Href : reference_instant r w1 = reference_instant r w2).
    { unfold reference_instant. destruct (return_date r) as [t|] eqn:Hret; [reflexivity|].
      apply Hclock. unfold reads_clock, is_open. rewrite Hdb, Hsel, Hret. reflexivity. }
    rewrite Href. reflexivity.
  - unfold calculate_late_fee_for_book, bind, query, ret.
    rewrite <- Hdb, Hsel. reflexivity.
Qed.

Lemma late_fee_determined_by_store_and_clock_witness :
  fst (calculate_late_fee_for_book "123456" 1 (world_at db_closed_loan (day 30)))
  = fst (calculate_late_fee_for_book "123456" 1 (world_at db_closed_loan (day 90))).
Proof.
  apply (late_fee_determined_by_store_and_clock
           (world_at db_closed_loan (day 30)) (world_at db_closed_loan (day 90))
           "123456" 1 eq_refl).
  vm_compute. discriminate.
Defined.

(** C4, as stated, fails: the calculation has no parameter for the instant;
    for an open loan two evaluations against the same store differ with the
    wall clock (3 overdue days on day 17, 10 on day 24), and the evaluation
    consumes a clock reading. *)
Lemma late_fee_reads_ambient_clock :
  db (world_at db_open_loan (day 17)) = db (world_at db_open_loan (day 24))
  /\ fst (calculate_late_fee_for_book "123456" 1 (world_at db_open_loan (day 17)))
     <> fst (calculate_late_fee_for_book "123456" 1 (world_at db_open_loan (day 24)))
  /\ ticks (snd (calculate_late_fee_for_book "123456" 1 (world_at db_open_loan (day 17))))
     <> ticks (world_at db_open_loan (day 17)).
Proof.
  split; [reflexivity|]. split.
  - intros E. apply (f_equal days_overdue) in E. vm_compute in E. discriminate.
  - vm_compute. discriminate.
Qed.

(** ** Borrowing and returning *)

Lemma borrow_count_is_open_loans (p : string) (w : World) :
  get_patron_borrow_count p w = (open_loans p (db w), w).
Proof. reflexivity. Qed.

(** What a borrow does once the patron id is valid, the book exists with a
    copy available and the patron is below the limit: two writes, each of
    which may fail. *)
Lemma borrow_past_checks (w : World) (p : string) (bid : Z) (bk : Book) :
  invalid_patron_id p = false ->
  books (db w) !! bid = Some bk ->
  0 < available_copies bk ->
  open_loans p (db w) < 5 ->
  borrow_book_by_patron p bid w =
    let now := clock w (ticks w) in
    let due := now + PyTime.timedelta_days 14 in
    let rec := mkBorrowRecord p bid now due None in
    if disk w (writes w) then
      let d1 := mkDB (books (db w)) (borrow_records (db w) ++ [rec]) in
      if disk w (S (writes w)) then
        ((true, "Successfully borrowed " ++ PyStr.dquote ++ title bk ++ PyStr.dquote
                ++ ". Due date: " ++ PyTime.strftime_ymd due ++ "."),
         mkWorld (mkDB (alter (fun b => with_available (available_copies b + -1) b)
                              bid (books d1))
                       (borrow_records d1))
                 (clock w) (S (ticks w)) (disk w) (S (S (writes w))))
      else ((false, msg_db_availability),
            mkWorld d1 (clock w) (S (ticks w)) (disk w) (S (S (writes w))))
    else ((false, msg_db_borrow_record),
          mkWorld (db w) (clock w) (S (ticks w)) (disk w) (S (writes w))).
Proof.
  intros Hp Hb Ha Hc.
  unfold borrow_book_by_patron. rewrite Hp.
  unfold bind at 1. unfold get_book_by_id, query. rewrite Hb.
  destruct (Z.leb_spec (available_copies bk) 0); [lia|].
  unfold bind at 1. rewrite borrow_count_is_open_loans.
  destruct (Z.leb_spec 5 (open_loans p (db w))); [lia|].
  unfold bind, datetime_now, insert_borrow_record, update_book_availability, commit, ret.
  cbn [db clock ticks disk writes].
  destruct (disk w (writes w)); cbn [negb db clock ticks disk writes]; [|reflexivity].
  destruct (disk w (S (writes w))); reflexivity.
Qed.

Lemma open_loans_after_insert (p : string) (bks : gmap Z Book) (l : list BorrowRecord)
  (b : Z) (t1 t2 : Z) :
  open_loans p (mkDB bks (l ++ [mkBorrowRecord p b t1 t2 None])) = open_loans p (mkDB bks l) + 1.
Proof.
  unfold open_loans. cbn [borrow_records].
  rewrite List.filter_app, length_app. cbn. rewrite String.eqb_refl. cbn. lia.
Qed.

(** C3. For a valid patron id and an existing book with a copy available,
    the borrow is rejected with the message about the limit of 5 books exactly
    when the patron holds 5 or more open records over all books; with 4 open
    records the borrow succeeds (the two writes going through) and the patron
    then holds 5. *)
Theorem borrow_limit_is_five (w : World) (p : string) (bid : Z) (bk : Book) :
  invalid_patron_id p = false ->
  books (db w) !! bid = Some bk ->
  0 < available_copies bk ->
  (fst (borrow_book_by_patron p bid w) = (false, msg_limit) <-> 5 <= open_loans p (db w))
  /\ (open_loans p (db w) = 4 ->
      disk w (writes w) = true -> disk w (S (writes w)) = true ->
      fst (fst (borrow_book_by_patron p bid w)) = true
      /\ open_loans p (db (snd (borrow_book_by_patron p bid w))) = 5).
Proof.
  intros Hp Hb Ha. split.
  - destruct (Z.le_gt_cases 5 (open_loans p (db w))) as [Hc|Hc].
    + split; [auto|intros _].
      unfold borrow_book_by_patron. rewrite Hp.
      unfold bind at 1. unfold get_book_by_id, query. rewrite Hb.
      destruct (Z.leb_spec (available_copies bk) 0); [lia|].
      unfold bind at 1. rewrite borrow_count_is_open_loans.
      destruct (Z.leb_spec 5 (open_loans p (db w))); [reflexivity|lia].
    + split; [|lia]. rewrite (borrow_past_checks w p bid bk Hp Hb Ha Hc). cbv zeta.
      destruct (disk w (writes w)); [destruct (disk w (S (writes w)))|];
        cbn [fst]; intros E; inversion E.
  - intros H4 Hw1 Hw2.
    rewrite (borrow_past_checks w p bid bk Hp Hb Ha ltac:(lia)). cbv zeta.
    rewrite Hw1, Hw2. cbn [fst snd db borrow_records]. split; [reflexivity|].
    rewrite open_loans_after_insert. unfold open_loans in *. cbn [borrow_records]. lia.
Qed.

Lemma borrow_limit_is_five_witness :
  fst (borrow_book_by_patron "123456" 6 (world_at (db_with_loans 5) (day 1)))
    = (false, msg_limit)
  /\ fst (fst (borrow_book_by_patron "123456" 5 (world_at (db_with_loans 4) (day 1))))
    = true.
Proof.
  split.
  - apply (borrow_limit_is_five (world_at (db_with_loans 5) (day 1)) "123456" 6
             (shelf_book 6 1)); [reflexivity | reflexivity | reflexivity | ].
    vm_compute. discriminate.
  - apply (borrow_limit_is_five (world_at (db_with_loans 4) (day 1)) "123456" 5
             (shelf_book 5 1)); reflexivity.
Defined.


Lemma head_filter_None {A} (f : A -> bool) (l : list A) :
  head (List.filter f l) = None <-> forall x, In x l -> f x = false.
Proof.
  induction l as [|a l IH]; cbn.
  - split; [intros _ x []|reflexivity].
  - destruct (f a) eqn:Fa; cbn.
    + split; [discriminate|]. intros H. specialize (H a (or_introl eq_refl)). congruence.
    + rewrite IH. split.
      * intros H x [<-|Hx]; auto.
      * intros H x Hx. apply H. right. exact Hx.
Qed.

Lemma select_open_record_None (p : string) (bid : Z) (d : DB) :
  select_open_record p bid d = None <->
  forall r, In r (borrow_records d) ->
    patron_id r = p -> book_id r = bid -> return_date r <> None.
Proof.
  unfold select_open_record. rewrite head_filter_None. unfold of_pair, is_open.
  split; intros H r Hr.
  - intros Hp Hb Hret. specialize (H r Hr).
    rewrite Hp, Hb, Hret, String.eqb_refl, Z.eqb_refl in H. discriminate.
  - destruct (String.eqb_spec (patron_id r) p) as [Hp|]; [|reflexivity].
    destruct (Z.eqb_spec (book_id r) bid) as [Hb|]; [|reflexivity].
    destruct (return_date r) eqn:Hret; [reflexivity|].
    exfalso. exact (H r Hr Hp Hb Hret).
Qed.

Lemma return_unknown_book (w : World) (p : string) (bid : Z) :
  invalid_patron_id p = false ->
  books (db w) !! bid = None ->
  return_book_by_patron p bid w = ((false, msg_book_not_found), w).
Proof.
  intros Hp Hb. unfold return_book_by_patron. rewrite Hp.
  unfold bind, get_book_by_id, query. rewrite Hb. reflexivity.
Qed.

Lemma return_no_open_record (w : World) (p : string) (bid : Z) (bk : Book) :
  invalid_patron_id p = false ->
  books (db w) !! bid = Some bk ->
  select_open_record p bid (db w) = None ->
  return_book_by_patron p bid w = ((false, msg_no_active_record), w).
Proof.
  intros Hp Hb Hs. unfold return_book_by_patron. rewrite Hp.
  unfold bind, get_book_by_id, query. rewrite Hb, Hs. reflexivity.
Qed.

(** C8. For a valid patron id and an existing book, when no open record
    matches the patron and the book (closed records of the pair may exist),
    the return fails with the message that no active borrow record was found;
    this is another failure than the one for an unknown book id. *)
Theorem return_requires_open_record (w : World) (p : string) (bid : Z) (bk : Book) :
  invalid_patron_id p = false ->
  books (db w) !! bid = Some bk ->
  (forall r, In r (borrow_records (db w)) ->
     patron_id r = p -> book_id r = bid -> return_date r <> None) ->
  fst (return_book_by_patron p bid w) = (false, msg_no_active_record)
  /\ msg_no_active_record <> msg_book_not_found
  /\ (forall bid', books (db w) !! bid' = None ->
        fst (return_book_by_patron p bid' w) = (false, msg_book_not_found)).
Proof.
  intros Hp Hb Hnone. split; [|split].
  - apply select_open_record_None in Hnone.
    rewrite (return_no_open_record w p bid bk Hp Hb Hnone). reflexivity.
  - discriminate.
  - intros bid' Hb'. rewrite (return_unknown_book w p bid' Hp Hb'). reflexivity.
Qed.

Lemma return_requires_open_record_witness :
  fst (return_book_by_patron "123456" 1 (world_at db_closed_loan (day 21)))
    = (false, msg_no_active_record)
  /\ fst (return_book_by_patron "123456" 999 (world_at db_closed_loan (day 21)))
    = (false, msg_book_not_found).
Proof.
  destruct (return_requires_open_record (world_at db_closed_loan (day 21)) "123456" 1
              (sample_book 1) eq_refl eq_refl) as (H1 & _ & H2).
  - intros r [<-|[]] _ _. discriminate.
  - split; [exact H1|]. apply H2. reflexivity.
Defined.

Lemma borrow_fails_before_writes (w : World) (p : string) (bid : Z) :
  invalid_patron_id p = true
  \/ books (db w) !! bid = None
  \/ (exists bk, books (db w) !! bid = Some bk /\ available_copies bk <= 0)
  \/ 5 <= open_loans p (db w) ->
  exists m, borrow_book_by_patron p bid w = ((false, m), w).
Proof.
  intros H. unfold borrow_book_by_patron.
  destruct (invalid_patron_id p) eqn:Hp; [eexists; reflexivity|].
  unfold bind at 1. unfold get_book_by_id, query.
  destruct (books (db w) !! bid) as [bk|] eqn:Hb; [|eexists; reflexivity].
  destruct (Z.leb_spec (available_copies bk) 0) as [Ha|Ha]; [eexists; reflexivity|].
  unfold bind at 1. rewrite borrow_count_is_open_loans.
  destruct (Z.leb_spec 5 (open_loans p (db w))) as [Hc|Hc]; [eexists; reflexivity|].
  exfalso. destruct H as [H|[H|[(bk' & H & Ha')|H]]]; try congruence; try lia.
  assert (bk' = bk) by congruence. subst. lia.
Qed.

Lemma return_fails_before_writes (w : World) (p : string) (bid : Z) :
  invalid_patron_id p = true
  \/ books (db w) !! bid = None
  \/ select_open_record p bid (db w) = None ->
  exists m, return_book_by_patron p bid w = ((false, m), w).
Proof.
  intros H. unfold return_book_by_patron.
  destruct (invalid_patron_id p) eqn:Hp; [eexists; reflexivity|].
  unfold bind at 1. unfold get_book_by_id, query.
  destruct (books (db w) !! bid) as [bk|] eqn:Hb; [|eexists; reflexivity].
  unfold bind at 1.
  destruct (select_open_record p bid (db w)) as [r|] eqn:Hs; [|eexists; reflexivity].
  exfalso. destruct H as [H|[H|H]]; congruence.
Qed.

(** C10. A borrow that fails on a check made before the writes (invalid
    patron id, unknown book, no copy available, limit reached) and a return
    that fails on such a check (invalid patron id, unknown book, no open
    record of the pair) issue no write: the count of writes issued and the
    store, with every book's available copies and every borrow record, are as
    they were. *)
Theorem failed_checks_write_nothing (w : World) (p : string) (bid : Z) :
  (invalid_patron_id p = true
   \/ books (db w) !! bid = None
   \/ (exists bk, books (db w) !! bid = Some bk /\ available_copies bk <= 0)
   \/ 5 <= open_loans p (db w) ->
   fst (fst (borrow_book_by_patron p bid w)) = false
   /\ writes (snd (borrow_book_by_patron p bid w)) = writes w
   /\ db (snd (borrow_book_by_patron p bid w)) = db w)
  /\ (invalid_patron_id p = true
      \/ books (db w) !! bid = None
      \/ select_open_record p bid (db w) = None ->
      fst (fst (return_book_by_patron p bid w)) = false
      /\ writes (snd (return_book_by_patron p bid w)) = writes w
      /\ db (snd (return_book_by_patron p bid w)) = db w).
Proof.
  split; intros H.
  - destruct (borrow_fails_before_writes w p bid H) as [m ->]. auto.
  - destruct (return_fails_before_writes w p bid H) as [m ->]. auto.
Qed.

Lemma failed_checks_write_nothing_witness :
  db (snd (borrow_book_by_patron "12A456" 1 (world_at db_one_book (day 1)))) = db_one_book
  /\ db (snd (return_book_by_patron "123456" 1 (world_at db_closed_loan (day 21))))
     = db_closed_loan.
Proof.
  destruct (failed_checks_write_nothing (world_at db_one_book (day 1)) "12A456" 1)
    as [H1 _].
  destruct (failed_checks_write_nothing (world_at db_closed_loan (day 21)) "123456" 1)
    as [_ H2].
  split.
  - apply H1. left. reflexivity.
  - apply H2. right. right. reflexivity.
Defined.

(** ** Payments and refunds *)

Section PaymentFacts.

Variable calculate : string -> Z -> M (option FeeDict).
Variable lookup : Z -> M (option Book).

Lemma pay_invalid_patron (p : string) (b : Z) (gw : PaymentGateway) (w : World) :
  invalid_patron_id p = true ->
  fst (pay_late_fees_with calculate lookup p b gw w)
    = ((false, "Invalid patron ID", None), []).
Proof. intros H. unfold pay_late_fees_with. rewrite H. reflexivity. Qed.

Lemma pay_fee_missing (p : string) (b : Z) (gw : PaymentGateway) (w : World) :
  invalid_patron_id p = false ->
  fee_found calculate p b w = None ->
  fst (pay_late_fees_with calculate lookup p b gw w)
    = ((false, "Unable to calculate late fees", None), []).
Proof.
  intros H F. unfold pay_late_fees_with, fee_found, bind in *. rewrite H.
  destruct (calculate p b w) as [[d|] w1]; cbn [fst] in *; [|reflexivity].
  rewrite F. reflexivity.
Qed.

Lemma pay_fee_zero (p : string) (b : Z) (gw : PaymentGateway) (w : World) (q : Q) :
  invalid_patron_id p = false ->
  fee_found calculate p b w = Some q -> (q == 0)%Q ->
  fst (pay_late_fees_with calculate lookup p b gw w)
    = ((false, "No late fees to pay", None), []).
Proof.
  intros H F Z0. unfold pay_late_fees_with, fee_found, bind in *. rewrite H.
  destruct (calculate p b w) as [[d|] w1]; cbn [fst] in *; [|discriminate].
  rewrite F. apply Qeq_bool_iff in Z0. rewrite Z0. reflexivity.
Qed.

Lemma pay_book_missing (p : string) (b : Z) (gw : PaymentGateway) (w : World) (q : Q) :
  invalid_patron_id p = false ->
  fee_found calculate p b w = Some q -> ~ (q == 0)%Q ->
  book_found calculate lookup p b w = None ->
  fst (pay_late_fees_with calculate lookup p b gw w)
    = ((false, "Book not found", None), []).
Proof.
  intros H F NZ B. unfold pay_late_fees_with, fee_found, book_found, bind in *.
  rewrite H.
  destruct (calculate p b w) as [[d|] w1]; cbn [fst snd] in *; [|discriminate].
  rewrite F. destruct (Qeq_bool q 0) eqn:E; [apply Qeq_bool_iff in E; contradiction|].
  destruct (lookup b w1) as [[bk|] w2]; cbn [fst] in *; [discriminate|reflexivity].
Qed.

End PaymentFacts.

(** C5. Whatever the fee calculation, the book lookup and the gateway are,
    the payment code does not call the gateway when the patron id is
    malformed, when the fee information is missing or has no fee amount, when
    the fee amount is 0, or when the book is not found: it fails with a null
    transaction id and with the message of the first of these checks that
    fails, in the order patron id, fee information, fee amount, book. *)
Theorem pay_rejections_skip_gateway
  (calculate : string -> Z -> M (option FeeDict)) (lookup : Z -> M (option Book))
  (p : string) (b : Z) (gw : PaymentGateway) (w : World) :
  let res := fst (pay_late_fees_with calculate lookup p b gw w) in
  (invalid_patron_id p = true
   \/ fee_found calculate p b w = None
   \/ (exists q, fee_found calculate p b w = Some q /\ (q == 0)%Q)
   \/ book_found calculate lookup p b w = None ->
   snd res = []
   /\ exists m, fst res = (false, m, None) /\ In m pay_rejections)
  /\ (invalid_patron_id p = true -> fst res = (false, "Invalid patron ID", None))
  /\ (invalid_patron_id p = false -> fee_found calculate p b w = None ->
      fst res = (false, "Unable to calculate late fees", None))
  /\ (invalid_patron_id p = false ->
      (exists q, fee_found calculate p b w = Some q /\ (q == 0)%Q) ->
      fst res = (false, "No late fees to pay", None))
  /\ (invalid_patron_id p = false ->
      (exists q, fee_found calculate p b w = Some q /\ ~ (q == 0)%Q) ->
      book_found calculate lookup p b w = None ->
      fst res = (false, "Book not found", None)).
Proof.
  intros res. subst res. split; [|split; [|split; [|split]]].
  - intros H.
    destruct (invalid_patron_id p) eqn:Hp.
    { rewrite (pay_invalid_patron calculate lookup p b gw w Hp). cbn. eauto 6. }
    destruct (fee_found calculate p b w) as [q|] eqn:Hf.
    2:{ rewrite (pay_fee_missing calculate lookup p b gw w Hp Hf). cbn. eauto 6. }
    destruct (Qeq_dec q 0) as [Hz|Hz].
    { rewrite (pay_fee_zero calculate lookup p b gw w q Hp Hf Hz). cbn. eauto 7. }
    destruct H as [H|[H|[(q' & H & Hq')|H]]]; try discriminate.
    { exfalso. injection H as <-. contradiction. }
    rewrite (pay_book_missing calculate lookup p b gw w q Hp Hf Hz H). cbn. eauto 8.
  - intros Hp. rewrite (pay_invalid_patron calculate lookup p b gw w Hp). reflexivity.
  - intros Hp Hf. rewrite (pay_fee_missing calculate lookup p b gw w Hp Hf). reflexivity.
  - intros Hp (q & Hf & Hz).
    rewrite (pay_fee_zero calculate lookup p b gw w q Hp Hf Hz). reflexivity.
  - intros Hp (q & Hf & Hz) Hb.
    rewrite (pay_book_missing calculate lookup p b gw w q Hp Hf Hz Hb). reflexivity.
Qed.

Lemma pay_rejections_skip_gateway_witness :
  fst (pay_late_fees_with (stub_fee (Some (fee_of 7.50))) (stub_book None)
         "123456" 999 gateway_accepting (world_at db_one_book (day 1)))
  = ((false, "Book not found", None), [])
  /\ snd (fst (pay_late_fees_with (stub_fee (Some (fee_of 0.00))) (stub_book None)
         "12345" 1 gateway_accepting (world_at db_one_book (day 1)))) = [].
Proof.
  split.
  - destruct (pay_rejections_skip_gateway (stub_fee (Some (fee_of 7.50))) (stub_book None)
                "123456" 999 gateway_accepting (world_at db_one_book (day 1)))
      as (H0 & _ & _ & _ & H4).
    destruct (H0 (or_intror (or_intror (or_intror eq_refl)))) as [E0 _].
    apply injective_projections; [|exact E0].
    apply H4; [reflexivity| |reflexivity].
    exists 7.50%Q. split; [reflexivity|]. intros E. vm_compute in E. discriminate.
  - destruct (pay_rejections_skip_gateway (stub_fee (Some (fee_of 0.00))) (stub_book None)
                "12345" 1 gateway_accepting (world_at db_one_book (day 1)))
      as (H0 & _).
    apply H0. left. reflexivity.
Defined.

Lemma refund_invalid_transaction (t : string) (amount : Q) (gw : PaymentGateway) :
  valid_transaction_id t = false ->
  refund_late_fee_payment t amount gw = ((false, "Invalid transaction ID"), []).
Proof.
  unfold valid_transaction_id, refund_late_fee_payment. intros H.
  rewrite <- negb_andb, H. reflexivity.
Qed.

(** The refund past its three checks: one call of the gateway, reported as
    the code reports it. *)
Lemma refund_calls_gateway (t : string) (amount : Q) (gw : PaymentGateway) :
  valid_transaction_id t = true -> (0 < amount)%Q -> (amount <= 15.00)%Q ->
  refund_late_fee_payment t amount gw =
    (match refund_payment gw t amount with
     | Returned (true, message) => (true, message)
     | Returned (false, message) => (false, message)
     | Raised fault => (false, "Refund processing error: " ++ fault)
     end, [RefundPayment t amount]).
Proof.
  unfold valid_transaction_id, refund_late_fee_payment. intros H Hlo Hhi.
  rewrite <- negb_andb, H. cbn [negb].
  destruct (Qle_bool amount 0) eqn:E0.
  { apply Qle_bool_iff in E0. exfalso. exact (Qlt_not_le _ _ Hlo E0). }
  destruct (Money.gtb amount 15.00) eqn:E1.
  { apply gtb_spec in E1. exfalso. exact (Qlt_not_le _ _ E1 Hhi). }
  destruct (refund_payment gw t amount) as [[[|] m]|f]; reflexivity.
Qed.

(** C6. The refund rejects every amount that is not above 0 and every amount
    above 15.00 without calling the gateway; for a transaction id that passes
    the check made first, the messages are that the refund amount must be
    greater than 0 and that it exceeds the maximum late fee; an amount of
    exactly 15.00 passes and the gateway is called with it. *)
Theorem refund_amount_bounds (t : string) (amount : Q) (gw : PaymentGateway) :
  ((amount <= 0)%Q \/ (15.00 < amount)%Q ->
   fst (fst (refund_late_fee_payment t amount gw)) = false
   /\ snd (refund_late_fee_payment t amount gw) = [])
  /\ (valid_transaction_id t = true -> (amount <= 0)%Q ->
      refund_late_fee_payment t amount gw
        = ((false, "Refund amount must be greater than 0"), []))
  /\ (valid_transaction_id t = true -> (15.00 < amount)%Q ->
      refund_late_fee_payment t amount gw
        = ((false, "Refund amount exceeds maximum late fee"), []))
  /\ (valid_transaction_id t = true -> (amount == 15.00)%Q ->
      snd (refund_late_fee_payment t amount gw) = [RefundPayment t amount]).
Proof.
  assert (Hlow : valid_transaction_id t = true -> (amount <= 0)%Q ->
            refund_late_fee_payment t amount gw
              = ((false, "Refund amount must be greater than 0"), [])).
  { unfold valid_transaction_id, refund_late_fee_payment. intros H Hle.
    rewrite <- negb_andb, H. cbn [negb].
    apply Qle_bool_iff in Hle. rewrite Hle. reflexivity. }
  assert (Hhigh : valid_transaction_id t = true -> (15.00 < amount)%Q ->
            refund_late_fee_payment t amount gw
              = ((false, "Refund amount exceeds maximum late fee"), [])).
  { unfold valid_transaction_id, refund_late_fee_payment. intros H Hgt.
    rewrite <- negb_andb, H. cbn [negb].
    destruct (Qle_bool amount 0) eqn:E0.
    { apply Qle_bool_iff in E0. exfalso.
      apply (Qlt_not_le _ _ Hgt). apply (Qle_trans _ 0); [exact E0|discriminate]. }
    apply gtb_spec in Hgt. rewrite Hgt. reflexivity. }
  split; [|split; [|split]]; auto.
  - intros H. destruct (valid_transaction_id t) eqn:Ht.
    + destruct H as [H|H]; [rewrite Hlow|rewrite Hhigh]; auto.
    + rewrite (refund_invalid_transaction t amount gw Ht). auto.
  - intros Ht E. rewrite (refund_calls_gateway t amount gw Ht); [reflexivity| |].
    + rewrite E. reflexivity.
    + rewrite E. discriminate.
Qed.

Lemma refund_amount_bounds_witness :
  snd (refund_late_fee_payment "txn_123456_test" 15.00 gateway_accepting)
    = [RefundPayment "txn_123456_test" 15.00]
  /\ refund_late_fee_payment "txn_123456_test" 15.01 gateway_accepting
    = ((false, "Refund amount exceeds maximum late fee"), [])
  /\ refund_late_fee_payment "txn_123456_test" 0.00 gateway_accepting
    = ((false, "Refund amount must be greater than 0"), [])
  /\ snd (refund_late_fee_payment "invalid_123456" (- 5.00) gateway_accepting) = [].
Proof.
  split; [|split; [|split]].
  - apply (refund_amount_bounds "txn_123456_test" 15.00 gateway_accepting); reflexivity.
  - apply (refund_amount_bounds "txn_123456_test" 15.01 gateway_accepting); reflexivity.
  - apply (refund_amount_bounds "txn_123456_test" 0.00 gateway_accepting);
      [reflexivity|discriminate].
  - apply (refund_amount_bounds "invalid_123456" (- 5.00) gateway_accepting).
    left. discriminate.
Defined.





(** ** Catalog *)

Lemma nodup_all_equal {A} (x : A) (l : list A) :
  NoDup l -> In x l -> (forall y, In y l -> y = x) -> l = [x].
Proof.
  intros Hnd Hin Hall. destruct l as [|a l]; [destruct Hin|].
  assert (a = x) by (apply Hall; left; reflexivity). subst a.
  destruct l as [|a' l]; [reflexivity|].
  assert (a' = x) by (apply Hall; right; left; reflexivity). subst a'.
  exfalso. apply NoDup_cons in Hnd. destruct Hnd as [Hnd _].
  apply Hnd. left.
Qed.

Lemma nodup_filter {A} (f : A -> bool) (l : list A) : NoDup l -> NoDup (List.filter f l).
Proof.
  induction 1 as [|a l Ha Hnd IH]; cbn; [constructor|].
  destruct (f a); [|exact IH].
  constructor; [|exact IH]. intros Hin.
  apply list_elem_of_In, filter_In in Hin. apply Ha, list_elem_of_In. tauto.
Qed.

(** The rows an exact search by ISBN selects are the books with that ISBN. *)
Lemma in_select_by_isbn (i : string) (m : gmap Z Book) (k : Z) (b : Book) :
  In (k, b) (List.filter (fun r => String.eqb (isbn (snd r)) i) (map_to_list m))
  <-> m !! k = Some b /\ isbn b = i.
Proof.
  rewrite filter_In, <- list_elem_of_In, elem_of_map_to_list. cbn [snd].
  rewrite String.eqb_eq. reflexivity.
Qed.

(** When one book has the ISBN and every book with that ISBN is that one, the
    exact search by ISBN returns that book alone. *)
Lemma search_isbn_single (w : World) (i : string) (k : Z) (b : Book) :
  PyStr.truthy i = true ->
  books (db w) !! k = Some b -> isbn b = i ->
  (forall k' b', books (db w) !! k' = Some b' -> isbn b' = i -> (k', b') = (k, b)) ->
  fst (search_books_in_catalog i "isbn" w) = [(k, b)].
Proof.
  intros Hi Hk Hb Hothers. unfold search_books_in_catalog. rewrite Hi.
  cbn [negb existsb valid_types String.eqb Ascii.eqb Bool.eqb orb andb query fst].
  unfold Sql.select_books.
  rewrite (nodup_all_equal (k, b)
             (List.filter (fun r => String.eqb (isbn (snd r)) i) (map_to_list (books (db w))))).
  - reflexivity.
  - apply nodup_filter, NoDup_map_to_list.
  - apply in_select_by_isbn. auto.
  - intros [k' b'] Hin. apply in_select_by_isbn in Hin. destruct Hin. auto.
Qed.

Lemma search_unknown_kind (w : World) (term kind : string) :
  ~ In kind valid_types -> fst (search_books_in_catalog term kind w) = [].
Proof.
  intros Hk. unfold search_books_in_catalog.
  destruct (PyStr.truthy term); [|reflexivity]. cbn [negb].
  destruct (existsb (String.eqb kind) valid_types) eqn:E; [|reflexivity].
  exfalso. apply Hk. apply existsb_exists in E. destruct E as (x & Hx & Ex).
  apply String.eqb_eq in Ex. subst. exact Hx.
Qed.

(** A successful add went through every check and committed one new row. *)
Lemma add_book_success (w w' : World) (t a i : string) (n : Z) (m : string) :
  add_book_to_catalog t a i n w = ((true, m), w') ->
  PyStr.len i = 13%nat /\ 0 < n
  /\ fst (get_book_by_isbn i w) = None
  /\ db w' = mkDB (<[next_book_id (books (db w))
                    := mkBook (PyStr.strip t) (PyStr.strip a) i n n]> (books (db w)))
                  (borrow_records (db w)).
Proof.
  unfold add_book_to_catalog.
  destruct (_ || _); [intros E; inversion E|].
  destruct (_ <? _)%nat; [intros E; inversion E|].
  destruct (_ || _); [intros E; inversion E|].
  destruct (_ <? _)%nat; [intros E; inversion E|].
  destruct (Nat.eqb_spec (PyStr.len i) 13) as [Hlen|]; [|intros E; inversion E].
  destruct (Z.leb_spec n 0) as [|Hn]; [intros E; inversion E|].
  cbn [negb]. unfold bind at 1.
  destruct (get_book_by_isbn i w) as [[r|] w1] eqn:Hg; [intros E; inversion E|].
  unfold get_book_by_isbn, query in Hg. injection Hg as Hhead <-.
  unfold bind, insert_book, commit.
  destruct (disk w (writes w)); [|intros E; inversion E].
  intros E. injection E as _ <-. cbn [db]. repeat split; assumption.
Qed.

Lemma len13_truthy (i : string) : PyStr.len i = 13%nat -> PyStr.truthy i = true.
Proof. destruct i; [discriminate|reflexivity]. Qed.

(** C9. After a successful add with ISBN [i], the exact search by ISBN for [i]
    returns one book and its ISBN is [i]; so it does in every state of the
    catalog in which ISBNs are unique and a book has ISBN [i].  A search of a
    kind other than title, author and isbn returns the empty list, whatever
    the term. *)
Theorem add_then_search_by_isbn (w w' : World) (t a i : string) (n : Z) (m : string) :
  add_book_to_catalog t a i n w = ((true, m), w') ->
  (exists k b, fst (search_books_in_catalog i "isbn" w') = [(k, b)] /\ isbn b = i)
  /\ (forall w2, unique_isbns (db w2) ->
        (exists k b, books (db w2) !! k = Some b /\ isbn b = i) ->
        exists k b, fst (search_books_in_catalog i "isbn" w2) = [(k, b)] /\ isbn b = i)
  /\ (forall w0 term kind, ~ In kind valid_types ->
        fst (search_books_in_catalog term kind w0) = []).
Proof.
  intros Hadd. destruct (add_book_success _ _ _ _ _ _ _ Hadd) as (Hlen & Hn & Hnone & Hdb).
  pose proof (len13_truthy i Hlen) as Hi.
  split; [|split].
  - exists (next_book_id (books (db w))), (mkBook (PyStr.strip t) (PyStr.strip a) i n n).
    split; [|reflexivity].
    apply search_isbn_single; [exact Hi| | reflexivity |].
    + rewrite Hdb. cbn [books]. apply lookup_insert_eq.
    + intros k' b'. rewrite Hdb. cbn [books]. intros Hk' Hb'.
      destruct (decide (next_book_id (books (db w)) = k')) as [<-|Hne].
      * rewrite lookup_insert_eq in Hk'. congruence.
      * rewrite lookup_insert_ne in Hk' by exact Hne. exfalso.
        unfold get_book_by_isbn, query in Hnone. cbn [fst] in Hnone.
        rewrite head_filter_None in Hnone.
        specialize (Hnone (k', b')). cbn [snd] in Hnone.
        rewrite Hb', String.eqb_refl in Hnone.
        assert (In (k', b') (map_to_list (books (db w)))) as Hin
          by (apply list_elem_of_In, elem_of_map_to_list; exact Hk').
        specialize (Hnone Hin). discriminate.
  - intros w2 Huniq (k & b & Hk & Hb). exists k, b. split; [|exact Hb].
    apply search_isbn_single; [exact Hi|exact Hk|exact Hb|].
    intros k' b' Hk' Hb'. assert (k' = k) by (apply (Huniq k' k b' b); congruence).
    subst k'. congruence.
  - intros w0 term kind. apply search_unknown_kind.
Qed.

Lemma add_then_search_by_isbn_witness :
  exists k b,
    fst (search_books_in_catalog "1234567890123" "isbn"
           (snd (add_book_to_catalog "Test Book" "Test Author" "1234567890123" 1
                   (world_at db_empty (day 1)))))
      = [(k, b)] /\ isbn b = "1234567890123".
Proof.
  destruct (add_then_search_by_isbn (world_at db_empty (day 1))
           (snd (add_book_to_catalog "Test Book" "Test Author" "1234567890123" 1
                   (world_at db_empty (day 1))))
           "Test Book" "Test Author" "1234567890123" 1
           (snd (fst (add_book_to_catalog "Test Book" "Test Author" "1234567890123" 1
                        (world_at db_empty (day 1)))))
           eq_refl) as [H _].
  exact H.
Defined.

(** ** Copies on the shelf *)

Lemma open_for_book_cons (id : Z) (r : BorrowRecord) (l : list BorrowRecord) :
  open_for_book id (r :: l)
  = (if (book_id r =? id) && is_open r then 1 else 0) + open_for_book id l.
Proof.
  unfold open_for_book. cbn [List.filter].
  destruct ((book_id r =? id) && is_open r); cbn [length]; lia.
Qed.

Lemma open_for_book_nonneg (id : Z) (l : list BorrowRecord) : 0 <= open_for_book id l.
Proof. unfold open_for_book. lia. Qed.

Lemma open_for_book_insert (id : Z) (l : list BorrowRecord) (r : BorrowRecord) :
  open_for_book id (l ++ [r])
  = open_for_book id l + (if (book_id r =? id) && is_open r then 1 else 0).
Proof.
  induction l as [|a l IH].
  - rewrite app_nil_l, open_for_book_cons. unfold open_for_book. cbn. lia.
  - rewrite <- app_comm_cons, !open_for_book_cons, IH. lia.
Qed.

Section Closing.

Variables (p : string) (bid : Z) (t : Z).

(** Closing the open records of a pair opens none. *)
Lemma close_open_for_book_le (id : Z) (l : list BorrowRecord) :
  open_for_book id (map (close_record p bid t) l) <= open_for_book id l.
Proof.
  induction l as [|r l IH]; [reflexivity|].
  cbn [map]. rewrite !open_for_book_cons. unfold close_record at 1 2.
  destruct (of_pair p bid r && is_open r); [|lia].
  cbn [with_return_date book_id is_open return_date]. rewrite andb_false_r.
  destruct ((book_id r =? id) && is_open r); lia.
Qed.

(** When the pair has an open record, closing takes at least one open
    record away from the book. *)
Lemma close_open_for_book_lt (l : list BorrowRecord) (r0 : BorrowRecord) :
  head (List.filter (fun r => of_pair p bid r && is_open r) l) = Some r0 ->
  open_for_book bid (map (close_record p bid t) l) + 1 <= open_for_book bid l.
Proof.
  induction l as [|r l IH]; [discriminate|].
  cbn [List.filter map]. rewrite !open_for_book_cons. unfold close_record at 1 2.
  destruct (of_pair p bid r && is_open r) eqn:E.
  - intros _. cbn [with_return_date book_id is_open return_date].
    rewrite andb_false_r.
    unfold of_pair in E. apply andb_prop in E. destruct E as [E1 E2].
    apply andb_prop in E1. destruct E1 as [_ E1]. rewrite E1, E2. cbn [andb].
    pose proof (close_open_for_book_le bid l). lia.
  - intros H. specialize (IH H). lia.
Qed.

End Closing.

(** The store after a return that passed its checks: the close and the
    increment are two writes, each of which may fail. *)
Lemma return_past_checks (w : World) (p : string) (bid : Z) (bk : Book) (r : BorrowRecord) :
  invalid_patron_id p = false ->
  books (db w) !! bid = Some bk ->
  select_open_record p bid (db w) = Some r ->
  db (snd (return_book_by_patron p bid w)) =
    let closed := map (close_record p bid (clock w (ticks w))) (borrow_records (db w)) in
  if disk w (writes w) then
      if disk w (S (writes w)) then
        mkDB (alter (fun b => with_available (available_copies b + 1) b) bid (books (db w)))
             closed
      else mkDB (books (db w)) closed
    else db w.
Proof.
  intros Hp Hb Hs. unfold return_book_by_patron. rewrite Hp.
  unfold bind at 1. unfold get_book_by_id, query. rewrite Hb.
  unfold bind at 1. rewrite Hs.
  unfold bind at 1. unfold datetime_now.
  unfold bind at 1. unfold update_borrow_record_return_date, commit.
  cbn [db clock ticks disk writes].
  destruct (disk w (writes w)); cbn [negb]; [|reflexivity].
  unfold bind at 1. unfold update_book_availability, commit.
  cbn [db clock ticks disk writes].
  destruct (disk w (S (writes w))); cbn [negb]; [|reflexivity].
  unfold bind.
  match goal with
  | |- context [calculate_late_fee_for_book p bid ?w3] =>
      pose proof (calculate_effects w3 p bid) as (E & _);
      destruct (calculate_late_fee_for_book p bid w3) as [a w4]
  end.
  cbn [snd db] in E.
  destruct (Money.gtb (fee_amount a) 0); cbn [ret snd]; exact E.
Qed.

(** The invariant holds of a fresh store. *)
Lemma stock_accounted_fresh (d : DB) : freshly_added d -> stock_accounted d.
Proof.
  intros [Hr Hb] id b Hid. destruct (Hb id b Hid) as [Hpos Heq].
  rewrite Hr. unfold open_for_book. cbn. lia.
Qed.

(** The invariant gives the range. *)
Lemma stock_accounted_in_range (d : DB) : stock_accounted d -> copies_in_range d.
Proof.
  intros H id b Hid. destruct (H id b Hid).
  pose proof (open_for_book_nonneg id (borrow_records d)). lia.
Qed.

(** Every request keeps the invariant, unless it is a borrow that loses its
    decrement. *)
Lemma exec_keeps_stock_accounted (o : Op) (w : World) :
  stock_accounted (db w) ->
  lost_decrement (o, fst (exec o w)) = false ->
  stock_accounted (db (snd (exec o w))).
Proof.
  intros Inv Hlost. destruct o as [p bid|p bid]; cbn [exec] in *.
  - destruct (invalid_patron_id p) eqn:Hp.
    { destruct (borrow_fails_before_writes w p bid) as [m ->]; auto. }
    destruct (books (db w) !! bid) as [bk|] eqn:Hb.
    2:{ destruct (borrow_fails_before_writes w p bid) as [m ->]; auto. }
    destruct (Z.le_gt_cases (available_copies bk) 0) as [Ha|Ha].
    { destruct (borrow_fails_before_writes w p bid) as [m ->]; eauto 6. }
    destruct (Z.le_gt_cases 5 (open_loans p (db w))) as [Hc|Hc].
    { destruct (borrow_fails_before_writes w p bid) as [m ->]; auto. }
    rewrite (borrow_past_checks w p bid bk Hp Hb ltac:(lia) Hc) in *. cbv zeta in *.
    destruct (disk w (writes w)); [|exact Inv].
    destruct (disk w (S (writes w))); [|discriminate Hlost].
    intros id b Hid. cbn [snd db books borrow_records] in Hid |- *.
    rewrite open_for_book_insert. cbn [book_id is_open return_date].
    rewrite lookup_alter in Hid. destruct (decide (bid = id)) as [<-|Hne].
    + rewrite Hb in Hid. injection Hid as <-. cbn [with_available available_copies total_copies].
      destruct (Inv bid bk Hb). rewrite Z.eqb_refl. cbn [andb]. lia.
    + destruct (Inv id b Hid). destruct (Z.eqb_spec bid id); [contradiction|].
      cbn [andb]. lia.
  - destruct (invalid_patron_id p) eqn:Hp.
    { destruct (return_fails_before_writes w p bid) as [m ->]; auto. }
    destruct (books (db w) !! bid) as [bk|] eqn:Hb.
    2:{ destruct (return_fails_before_writes w p bid) as [m ->]; auto. }
    destruct (select_open_record p bid (db w)) as [r|] eqn:Hs.
    2:{ destruct (return_fails_before_writes w p bid) as [m ->]; auto. }
    rewrite (return_past_checks w p bid bk r Hp Hb Hs). cbv zeta.
    destruct (disk w (writes w)); [|exact Inv].
    destruct (disk w (S (writes w))); intros id b Hid;
      cbn [books borrow_records] in Hid |- *.
    + rewrite lookup_alter in Hid. destruct (decide (bid = id)) as [<-|Hne].
      * rewrite Hb in Hid. injection Hid as <-.
        cbn [with_available available_copies total_copies].
        destruct (Inv bid bk Hb).
        pose proof (close_open_for_book_lt p bid (clock w (ticks w))
                      (borrow_records (db w)) r Hs). lia.
      * destruct (Inv id b Hid).
        pose proof (close_open_for_book_le p bid (clock w (ticks w)) id
                      (borrow_records (db w))). lia.
    + destruct (Inv id b Hid).
      pose proof (close_open_for_book_le p bid (clock w (ticks w)) id
                    (borrow_records (db w))). lia.
Qed.

(** No request makes the copies on the shelf negative in number, whatever
    fails. *)
Lemma exec_keeps_non_negative (o : Op) (w : World) :
  copies_non_negative (db w) -> copies_non_negative (db (snd (exec o w))).
Proof.
  intros Inv. destruct o as [p bid|p bid]; cbn [exec] in *.
  - destruct (invalid_patron_id p) eqn:Hp.
    { destruct (borrow_fails_before_writes w p bid) as [m ->]; auto. }
    destruct (books (db w) !! bid) as [bk|] eqn:Hb.
    2:{ destruct (borrow_fails_before_writes w p bid) as [m ->]; auto. }
    destruct (Z.le_gt_cases (available_copies bk) 0) as [Ha|Ha].
    { destruct (borrow_fails_before_writes w p bid) as [m ->]; eauto 6. }
    destruct (Z.le_gt_cases 5 (open_loans p (db w))) as [Hc|Hc].
    { destruct (borrow_fails_before_writes w p bid) as [m ->]; auto. }
    rewrite (borrow_past_checks w p bid bk Hp Hb ltac:(lia) Hc). cbv zeta.
    destruct (disk w (writes w)); [|exact Inv].
    destruct (disk w (S (writes w))); [|exact Inv].
    intros id b Hid. cbn [snd db books] in Hid.
    rewrite lookup_alter in Hid. destruct (decide (bid = id)) as [<-|Hne].
    + rewrite Hb in Hid. injection Hid as <-. cbn. lia.
    + exact (Inv id b Hid).
  - destruct (invalid_patron_id p) eqn:Hp.
    { destruct (return_fails_before_writes w p bid) as [m ->]; auto. }
    destruct (books (db w) !! bid) as [bk|] eqn:Hb.
    2:{ destruct (return_fails_before_writes w p bid) as [m ->]; auto. }
    destruct (select_open_record p bid (db w)) as [r|] eqn:Hs.
    2:{ destruct (return_fails_before_writes w p bid) as [m ->]; auto. }
    rewrite (return_past_checks w p bid bk r Hp Hb Hs). cbv zeta.
    destruct (disk w (writes w)); [|exact Inv].
    destruct (disk w (S (writes w))); [|exact Inv].
    intros id b Hid. cbn [books] in Hid.
    rewrite lookup_alter in Hid. destruct (decide (bid = id)) as [<-|Hne].
    + rewrite Hb in Hid. injection Hid as <-. cbn. specialize (Inv bid bk Hb). lia.
    + exact (Inv id b Hid).
Qed.

Lemma run_cons (o : Op) (ops : list Op) (w : World) :
  run (o :: ops) w =
    ((o, fst (exec o w)) :: fst (run ops (snd (exec o w))),
     snd (run ops (snd (exec o w)))).
Proof.
  cbn [run]. unfold bind, ret. destruct (exec o w) as [r w1]. cbn [fst snd].
  destruct (run ops w1) as [rs w2]. reflexivity.
Qed.

Lemma run_keeps_stock_accounted (ops : list Op) (w : World) :
  stock_accounted (db w) ->
  existsb lost_decrement (fst (run ops w)) = false ->
  stock_accounted (db (snd (run ops w))).
Proof.
  revert w. induction ops as [|o ops IH]; intros w Inv Hlost; [exact Inv|].
  rewrite run_cons in *. cbn [fst snd existsb] in *.
  apply orb_false_elim in Hlost. destruct Hlost as [H1 H2].
  apply IH; [|exact H2]. apply exec_keeps_stock_accounted; assumption.
Qed.

Lemma run_keeps_non_negative (ops : list Op) (w : World) :
  copies_non_negative (db w) -> copies_non_negative (db (snd (run ops w))).
Proof.
  revert w. induction ops as [|o ops IH]; intros w Inv; [exact Inv|].
  rewrite run_cons. cbn [snd]. apply IH, exec_keeps_non_negative, Inv.
Qed.

(** C2, as the code has it.  From freshly added books, after any sequence of
    borrows and returns, whichever writes fail, no book has a negative number
    of available copies; and no book has more available copies than copies
    in total as long as no borrow of the sequence lost its decrement (its
    record was inserted and the availability update then failed). *)
Theorem copies_stay_in_range (w : World) (ops : list Op) :
  freshly_added (db w) ->
  copies_non_negative (db (snd (run ops w)))
  /\ (existsb lost_decrement (fst (run ops w)) = false ->
      copies_in_range (db (snd (run ops w)))).
Proof.
  intros Hfresh. pose proof (stock_accounted_fresh _ Hfresh) as Inv. split.
  - apply run_keeps_non_negative. intros id b Hid. destruct (Inv id b Hid). assumption.
  - intros Hlost. apply stock_accounted_in_range, run_keeps_stock_accounted; assumption.
Qed.

Lemma db_one_book_fresh : freshly_added db_one_book.
Proof.
  split; [reflexivity|]. intros id b H. unfold db_one_book in H. cbn [books] in H.
  apply lookup_singleton_Some in H. destruct H as [_ <-]. cbn. lia.
Qed.

Lemma copies_stay_in_range_witness :
  copies_in_range
    (db (snd (run [Borrow "123456" 1; Borrow "654321" 1; Return "123456" 1]
                  (world_failing db_one_book 0)))).
Proof.
  apply (copies_stay_in_range (world_failing db_one_book 0)
           [Borrow "123456" 1; Borrow "654321" 1; Return "123456" 1]).
  - split; [reflexivity|]. intros id b H. cbn [world_failing db db_one_book books] in H.
    apply lookup_singleton_Some in H. destruct H as [_ <-]. cbn. lia.
  - vm_compute. reflexivity.
Defined.

(** C2, as stated, fails when a write fails: the book is freshly added with
    its one copy available; the borrow inserts its record and its decrement
    fails (write number 1); the return then closes the record and increments,
    and the book has 2 available copies of 1. *)
Lemma lost_decrement_exceeds_total :
  freshly_added (db (world_failing db_one_book 1))
  /\ fst (run [Borrow "123456" 1; Return "123456" 1] (world_failing db_one_book 1))
     = [(Borrow "123456" 1, (false, msg_db_availability));
        (Return "123456" 1, (true, "Successfully returned " ++ PyStr.dquote ++ "Test Book"
                                   ++ PyStr.dquote ++ ". No late fees."))]
  /\ ~ copies_in_range
         (db (snd (run [Borrow "123456" 1; Return "123456" 1]
                       (world_failing db_one_book 1)))).
Proof.
  split; [exact db_one_book_fresh|]. split; [vm_compute; reflexivity|].
  intros H.
  assert (E : books (db (snd (run [Borrow "123456" 1; Return "123456" 1]
                                  (world_failing db_one_book 1)))) !! 1
              = Some (sample_book 2)) by (vm_compute; reflexivity).
  destruct (H 1 (sample_book 2) E) as [_ Hle]. cbn in Hle. lia.
Qed.

(** * Further properties of the service *)

(** ** Adding books *)

Lemma truthy_not_empty (s : string) : PyStr.truthy s = true <-> s <> EmptyString.
Proof. destruct s; cbn; split; congruence. Qed.

Lemma strip_not_empty (s : string) :
  negb (PyStr.truthy s) || negb (PyStr.truthy (PyStr.strip s)) = false
  <-> PyStr.strip s <> EmptyString.
Proof.
  rewrite orb_false_iff, !negb_false_iff, !truthy_not_empty. split; [tauto|].
  intros H. split; [|exact H]. intros ->. apply H. reflexivity.
Qed.

Lemma get_book_by_isbn_None (i : string) (w : World) :
  fst (get_book_by_isbn i w) = None <-> ~ isbn_in_use i (db w).
Proof.
  unfold get_book_by_isbn, query. cbn [fst]. rewrite head_filter_None. split.
  - intros H (k & b & Hk & Hb).
    assert (In (k, b) (map_to_list (books (db w)))) as Hin
      by (apply list_elem_of_In, elem_of_map_to_list; exact Hk).
    specialize (H _ Hin). cbn [snd] in H. rewrite Hb, String.eqb_refl in H. discriminate.
  - intros H [k b] Hin. cbn [snd]. destruct (String.eqb_spec (isbn b) i) as [E|]; [|reflexivity].
    exfalso. apply H. exists k, b. split; [|exact E].
    apply elem_of_map_to_list, list_elem_of_In. exact Hin.
Qed.

(** An add that passes every check commits one row, when the write goes
    through. *)
Lemma add_book_commits (w : World) (t a i : string) (n : Z) :
  add_fields_ok t a i n -> ~ isbn_in_use i (db w) ->
  add_book_to_catalog t a i n w =
    if disk w (writes w)
    then ((true, "Book " ++ PyStr.dquote ++ PyStr.strip t ++ PyStr.dquote
                 ++ " has been successfully added to the catalog."),
          world_with_book w t a i n)
    else ((false, "Database error occurred while adding the book."),
          mkWorld (db w) (clock w) (ticks w) (disk w) (S (writes w))).
Proof.
  intros (Ht & Htl & Ha & Hal & Hi & Hn) Hfree. unfold add_book_to_catalog.
  apply strip_not_empty in Ht, Ha. rewrite Ht, Ha.
  destruct (Nat.ltb_spec 200 (PyStr.len (PyStr.strip t))); [lia|].
  destruct (Nat.ltb_spec 100 (PyStr.len (PyStr.strip a))); [lia|].
  rewrite Hi. cbn [Nat.eqb negb]. destruct (Z.leb_spec n 0); [lia|].
  apply get_book_by_isbn_None in Hfree.
  unfold bind at 1. destruct (get_book_by_isbn i w) as [r w1] eqn:Hg.
  cbn [fst] in Hfree. subst r.
  unfold get_book_by_isbn, query in Hg. injection Hg as _ <-.
  unfold bind, insert_book, commit, world_with_book. destruct (disk w (writes w)); reflexivity.
Qed.

(** An add that fails a check or finds the ISBN in use returns at once. *)
Lemma add_book_rejects (w : World) (t a i : string) (n : Z) :
  ~ add_fields_ok t a i n \/ isbn_in_use i (db w) ->
  exists m, add_book_to_catalog t a i n w = ((false, m), w).
Proof.
  intros H. unfold add_book_to_catalog.
  destruct (_ || _) eqn:Ht; [eexists; reflexivity|]. apply strip_not_empty in Ht.
  destruct (Nat.ltb_spec 200 (PyStr.len (PyStr.strip t))); [eexists; reflexivity|].
  destruct (_ || _) eqn:Ha; [eexists; reflexivity|]. apply strip_not_empty in Ha.
  destruct (Nat.ltb_spec 100 (PyStr.len (PyStr.strip a))); [eexists; reflexivity|].
  destruct (Nat.eqb_spec (PyStr.len i) 13) as [Hi|]; [|eexists; reflexivity].
  cbn [negb]. destruct (Z.leb_spec n 0); [eexists; reflexivity|].
  unfold bind at 1. destruct (get_book_by_isbn i w) as [[r|] w1] eqn:Hg.
  - unfold get_book_by_isbn, query in Hg. injection Hg as _ <-. eexists; reflexivity.
  - exfalso. destruct H as [H|H].
    + apply H. repeat split; assumption.
    + assert (fst (get_book_by_isbn i w) = None) as Hn by (rewrite Hg; reflexivity).
      apply get_book_by_isbn_None in Hn. contradiction.
Qed.

Lemma add_fields_ok_dec (t a i : string) (n : Z) :
  add_fields_ok t a i n \/ ~ add_fields_ok t a i n.
Proof.
  unfold add_fields_ok.
  destruct (string_dec (PyStr.strip t) EmptyString); [right; tauto|].
  destruct (le_dec (PyStr.len (PyStr.strip t)) 200%nat); [|right; tauto].
  destruct (string_dec (PyStr.strip a) EmptyString); [right; tauto|].
  destruct (le_dec (PyStr.len (PyStr.strip a)) 100%nat); [|right; tauto].
  destruct (Nat.eq_dec (PyStr.len i) 13%nat); [|right; tauto].
  destruct (Z_lt_dec 0 n); [left|right]; tauto.
Qed.

Lemma head_filter_Some {A} (f : A -> bool) (l : list A) (x : A) :
  head (List.filter f l) = Some x -> In x l /\ f x = true.
Proof.
  intros H. apply filter_In. destruct (List.filter f l); [discriminate|].
  injection H as ->. left. reflexivity.
Qed.

Lemma isbn_in_use_dec (i : string) (d : DB) : isbn_in_use i d \/ ~ isbn_in_use i d.
Proof.
  destruct (head (List.filter (fun r => String.eqb (isbn (snd r)) i) (map_to_list (books d))))
    as [[k b]|] eqn:E.
  - left. apply head_filter_Some in E. destruct E as [Hin Hb]. exists k, b.
    split; [apply elem_of_map_to_list, list_elem_of_In; exact Hin|].
    apply String.eqb_eq. exact Hb.
  - right. apply (get_book_by_isbn_None i (mkWorld d (fun _ => 0) 0 (fun _ => true) 0)).
    exact E.
Qed.

(** When an add succeeds, in terms of its arguments, the catalog and the
    write. *)
Lemma add_success_conditions (w : World) (t a i : string) (n : Z) :
  fst (fst (add_book_to_catalog t a i n w)) = true
  <-> add_fields_ok t a i n /\ ~ isbn_in_use i (db w) /\ disk w (writes w) = true.
Proof.
  destruct (add_fields_ok_dec t a i n) as [Hf|Hf].
  2:{ destruct (add_book_rejects w t a i n (or_introl Hf)) as [m ->]. cbn. split.
      - discriminate.
      - tauto. }
  destruct (isbn_in_use_dec i (db w)) as [Hu|Hu].
  { destruct (add_book_rejects w t a i n (or_intror Hu)) as [m ->]. cbn. split.
    - discriminate.
    - tauto. }
  rewrite (add_book_commits w t a i n Hf Hu).
  destruct (disk w (writes w)); cbn [fst]; split; try tauto; try discriminate.
Qed.

(** X1. An add succeeds exactly when the trimmed title and author are not
    empty and within 200 and 100 characters, the ISBN has 13 characters, the
    number of copies is positive, no book of the catalog has the ISBN, and the
    write goes through. *)
Theorem add_book_succeeds_iff (w : World) (t a i : string) (n : Z) :
  fst (fst (add_book_to_catalog t a i n w)) = true
  <-> add_fields_ok t a i n /\ ~ isbn_in_use i (db w) /\ disk w (writes w) = true.
Proof. exact (add_success_conditions w t a i n). Qed.

(** X2. An add that does not succeed leaves the store as it was; unless it
    reports the database error it has not even issued a write, and the world is
    as before. *)
Theorem add_book_failure_changes_nothing (w : World) (t a i : string) (n : Z) :
  fst (fst (add_book_to_catalog t a i n w)) = false ->
  db (snd (add_book_to_catalog t a i n w)) = db w
  /\ (snd (fst (add_book_to_catalog t a i n w))
        <> "Database error occurred while adding the book." ->
      snd (add_book_to_catalog t a i n w) = w).
Proof.
  destruct (add_fields_ok_dec t a i n) as [Hf|Hf].
  2:{ destruct (add_book_rejects w t a i n (or_introl Hf)) as [m ->]. cbn. auto. }
  destruct (isbn_in_use_dec i (db w)) as [Hu|Hu].
  { destruct (add_book_rejects w t a i n (or_intror Hu)) as [m ->]. cbn. auto. }
  rewrite (add_book_commits w t a i n Hf Hu).
  destruct (disk w (writes w)); cbn; [discriminate|]. intros _. split; [reflexivity|].
  intros H. exfalso. apply H. reflexivity.
Qed.

Lemma add_book_failure_changes_nothing_witness :
  snd (add_book_to_catalog "   " "Author" "1234567890123" 1 (world_at db_one_book (day 1)))
    = world_at db_one_book (day 1)
  /\ db (snd (add_book_to_catalog "Title" "Author" "9999999999999" 1
               (world_failing db_one_book 0))) = db_one_book.
Proof.
  split.
  - apply (add_book_failure_changes_nothing (world_at db_one_book (day 1))
             "   " "Author" "1234567890123" 1); [reflexivity|].
    vm_compute. discriminate.
  - apply (add_book_failure_changes_nothing (world_failing db_one_book 0)
             "Title" "Author" "9999999999999" 1). reflexivity.
Defined.

(** The store after a successful add. *)
Lemma add_book_stored (w w' : World) (t a i : string) (n : Z) (m : string) :
  add_book_to_catalog t a i n w = ((true, m), w') ->
  let k := next_book_id (books (db w)) in
  books (db w) !! k = None
  /\ books (db w') !! k = Some (mkBook (PyStr.strip t) (PyStr.strip a) i n n)
  /\ (forall k', k' <> k -> books (db w') !! k' = books (db w) !! k')
  /\ borrow_records (db w') = borrow_records (db w)
  /\ book_fields_ok (mkBook (PyStr.strip t) (PyStr.strip a) i n n).
Proof.
  intros Hadd k.
  assert (Hs : fst (fst (add_book_to_catalog t a i n w)) = true) by (rewrite Hadd; reflexivity).
  apply add_success_conditions in Hs. destruct Hs as (Hf & Hu & Hd).
  rewrite (add_book_commits w t a i n Hf Hu), Hd in Hadd. injection Hadd as _ <-.
  unfold world_with_book. cbn [db books borrow_records]. fold k.
  split; [apply next_book_id_fresh|]. split; [apply lookup_insert_eq|].
  split; [intros k' Hk'; apply lookup_insert_ne; congruence|].
  split; [reflexivity|]. exact Hf.
Qed.

(** X3. A successful add stores, under a key that was not in use, a book with
    the trimmed title and author, the ISBN, and all its copies available; the
    books that were in the catalog and the borrow records stay as they
    were. *)
Theorem add_book_stores_book (w w' : World) (t a i : string) (n : Z) (m : string) :
  add_book_to_catalog t a i n w = ((true, m), w') ->
  let k := next_book_id (books (db w)) in
  books (db w) !! k = None
  /\ books (db w') !! k = Some (mkBook (PyStr.strip t) (PyStr.strip a) i n n)
  /\ (forall k', k' <> k -> books (db w') !! k' = books (db w) !! k')
  /\ borrow_records (db w') = borrow_records (db w)
  /\ book_fields_ok (mkBook (PyStr.strip t) (PyStr.strip a) i n n).
Proof. exact (add_book_stored w w' t a i n m). Qed.

Lemma add_book_stores_book_witness :
  books (db (snd (add_book_to_catalog "  Dune " "Frank Herbert" "9780441013593" 3
                    (world_at db_one_book (day 1))))) !! 2
  = Some (mkBook "Dune" "Frank Herbert" "9780441013593" 3 3).
Proof.
  apply (add_book_stores_book (world_at db_one_book (day 1))
           (snd (add_book_to_catalog "  Dune " "Frank Herbert" "9780441013593" 3
                   (world_at db_one_book (day 1))))
           "  Dune " "Frank Herbert" "9780441013593" 3
           (snd (fst (add_book_to_catalog "  Dune " "Frank Herbert" "9780441013593" 3
                        (world_at db_one_book (day 1)))))).
  reflexivity.
Defined.

(** ** The borrowing engine *)

(** Whatever fails, a request to the engine leaves one of the stores of
    [engine_effect]. *)
Lemma exec_effect (o : Op) (w : World) : engine_effect w o (db (snd (exec o w))).
Proof.
  destruct o as [p bid|p bid]; cbn [exec].
  - destruct (invalid_patron_id p) eqn:Hp.
    { destruct (borrow_fails_before_writes w p bid) as [m ->]; [auto|cbn [snd db]; apply effect_none]. }
    destruct (books (db w) !! bid) as [bk|] eqn:Hb.
    2:{ destruct (borrow_fails_before_writes w p bid) as [m ->]; [auto|cbn [snd db]; apply effect_none]. }
    destruct (Z.le_gt_cases (available_copies bk) 0) as [Ha|Ha].
    { destruct (borrow_fails_before_writes w p bid) as [m ->]; [eauto 6|cbn [snd db]; apply effect_none]. }
    destruct (Z.le_gt_cases 5 (open_loans p (db w))) as [Hc|Hc].
    { destruct (borrow_fails_before_writes w p bid) as [m ->]; [auto|cbn [snd db]; apply effect_none]. }
    rewrite (borrow_past_checks w p bid bk Hp Hb ltac:(lia) Hc). cbv zeta.
    destruct (disk w (writes w)); [|cbn [snd db]; apply effect_none].
    destruct (disk w (S (writes w))); cbn [snd db books borrow_records].
    + apply (effect_borrow w p bid bk true); auto; lia.
    + apply (effect_borrow w p bid bk false); auto; lia.
  - destruct (invalid_patron_id p) eqn:Hp.
    { destruct (return_fails_before_writes w p bid) as [m ->]; [auto|cbn [snd db]; apply effect_none]. }
    destruct (books (db w) !! bid) as [bk|] eqn:Hb.
    2:{ destruct (return_fails_before_writes w p bid) as [m ->]; [auto|cbn [snd db]; apply effect_none]. }
    destruct (select_open_record p bid (db w)) as [r|] eqn:Hs.
    2:{ destruct (return_fails_before_writes w p bid) as [m ->]; [auto|cbn [snd db]; apply effect_none]. }
    rewrite (return_past_checks w p bid bk r Hp Hb Hs). cbv zeta.
    destruct (disk w (writes w)); [|cbn [snd db]; apply effect_none].
    destruct (disk w (S (writes w))).
    + apply (effect_return w p bid bk r true); auto.
    + apply (effect_return w p bid bk r false); auto.
Qed.

Lemma books_adjusted_lookup (d : DB) (bid delta k : Z) :
  books_adjusted d bid delta !! k
  = if decide (bid = k)
    then (fun b => with_available (available_copies b + delta) b) <$> books d !! bid
    else books d !! k.
Proof. unfold books_adjusted. apply lookup_alter. Qed.

Lemma same_columns_refl (b : Book) : same_columns b b.
Proof. repeat split. Qed.

Lemma same_columns_trans (b1 b2 b3 : Book) :
  same_columns b1 b2 -> same_columns b2 b3 -> same_columns b1 b3.
Proof. unfold same_columns. intuition congruence. Qed.

(** A change of the available copies moves no key and no other column. *)
Lemma books_adjusted_columns (d : DB) (bid delta k : Z) :
  match books d !! k, books_adjusted d bid delta !! k with
  | Some b, Some b' => same_columns b b'
  | None, None => True
  | _, _ => False
  end.
Proof.
  rewrite books_adjusted_lookup. destruct (decide (bid = k)) as [<-|_].
  - destruct (books d !! bid) as [b|]; cbn; [repeat split|exact I].
  - destruct (books d !! k) as [b|]; [apply same_columns_refl|exact I].
Qed.

Lemma engine_effect_columns (w : World) (o : Op) (d' : DB) (k : Z) :
  engine_effect w o d' ->
  match books (db w) !! k, books d' !! k with
  | Some b, Some b' => same_columns b b'
  | None, None => True
  | _, _ => False
  end.
Proof.
  assert (Hsame : match books (db w) !! k, books (db w) !! k with
                  | Some b, Some b' => same_columns b b'
                  | None, None => True
                  | _, _ => False
                  end)
    by (destruct (books (db w) !! k); [apply same_columns_refl|exact I]).
  intros [o'|p bid bk [|] Hp Hb Ha Hc|p bid bk r [|] Hp Hb Hs]; cbn [books];
    first [exact Hsame | apply books_adjusted_columns].
Qed.

(** X4. No sequence of borrows and returns, whatever fails in it, adds a
    book to the catalog, removes one, or changes the title, the author, the
    ISBN or the total number of copies of one. *)
Theorem engine_keeps_catalog (ops : list Op) (w : World) (k : Z) :
  match books (db w) !! k, books (db (snd (run ops w))) !! k with
  | Some b, Some b' => same_columns b b'
  | None, None => True
  | _, _ => False
  end.
Proof.
  revert w. induction ops as [|o ops IH]; intros w.
  - cbn. destruct (books (db w) !! k); [apply same_columns_refl|exact I].
  - rewrite run_cons. cbn [snd].
    pose proof (engine_effect_columns w o _ k (exec_effect o w)) as H1.
    specialize (IH (snd (exec o w))).
    destruct (books (db w) !! k) as [b|], (books (db (snd (exec o w))) !! k) as [b1|];
      try contradiction;
      destruct (books (db (snd (run ops (snd (exec o w))))) !! k) as [b2|];
      try contradiction; try exact I.
    exact (same_columns_trans _ _ _ H1 IH).
Qed.

Lemma record_advances_refl (r : BorrowRecord) : record_advances r r.
Proof. unfold record_advances. auto 6. Qed.

Lemma record_advances_trans (r1 r2 r3 : BorrowRecord) :
  record_advances r1 r2 -> record_advances r2 r3 -> record_advances r1 r3.
Proof.
  unfold record_advances. intros (? & ? & ? & ? & Hr1) (? & ? & ? & ? & Hr2).
  repeat split; try congruence.
  destruct Hr1 as [Hr1|Hr1]; [|auto]. destruct Hr2 as [Hr2|Hr2]; [left|right]; congruence.
Qed.

Lemma record_advances_close (p : string) (bid t : Z) (r : BorrowRecord) :
  record_advances r (close_record p bid t r).
Proof.
  unfold close_record. destruct (of_pair p bid r && is_open r) eqn:E.
  - apply andb_prop in E. destruct E as [_ E]. unfold is_open in E.
    destruct (return_date r) eqn:Hr; [discriminate|].
    unfold record_advances. cbn. auto 6.
  - apply record_advances_refl.
Qed.

Lemma Forall2_advances_refl (l : list BorrowRecord) : Forall2 record_advances l l.
Proof. induction l; constructor; [apply record_advances_refl|assumption]. Qed.

Lemma Forall2_advances_trans (l1 l2 l3 : list BorrowRecord) :
  Forall2 record_advances l1 l2 -> Forall2 record_advances l2 l3 ->
  Forall2 record_advances l1 l3.
Proof.
  intros H. revert l3. induction H as [|a b l1 l2 Hab H IH]; intros l3 H3.
  - inversion H3. constructor.
  - inversion H3 as [|b' c l2' l3' Hbc H3' E1 E2]. subst. constructor.
    + exact (record_advances_trans _ _ _ Hab Hbc).
    + apply IH. assumption.
Qed.

Lemma records_kept_refl (l : list BorrowRecord) : records_kept l l.
Proof.
  exists l, []. split; [symmetry; apply app_nil_r|apply Forall2_advances_refl].
Qed.

Lemma records_kept_trans (l1 l2 l3 : list BorrowRecord) :
  records_kept l1 l2 -> records_kept l2 l3 -> records_kept l1 l3.
Proof.
  intros (a & b & -> & Ha) (c & d & -> & Hc).
  apply Forall2_app_inv_l in Hc. destruct Hc as (c1 & c2 & Hc1 & Hc2 & ->).
  exists c1, (c2 ++ d)%list. split; [symmetry; apply app_assoc|].
  exact (Forall2_advances_trans _ _ _ Ha Hc1).
Qed.

Lemma engine_effect_records_kept (w : World) (o : Op) (d' : DB) :
  engine_effect w o d' -> records_kept (borrow_records (db w)) (borrow_records d').
Proof.
  intros [o'|p bid bk taken Hp Hb Ha Hc|p bid bk r put_back Hp Hb Hs]; cbn [borrow_records].
  - apply records_kept_refl.
  - eexists _, _. split; [reflexivity|apply Forall2_advances_refl].
  - exists (closed_records w p bid), []. split; [symmetry; apply app_nil_r|].
    unfold closed_records. apply Forall2_fmap_r.
    apply Forall_Forall2_diag, Forall_forall. intros r' _. apply record_advances_close.
Qed.

(** What an add can do to the store: nothing, or one more book. *)
Lemma add_book_effect (w : World) (t a i : string) (n : Z) :
  db (snd (add_book_to_catalog t a i n w)) = db w
  \/ (add_fields_ok t a i n /\ ~ isbn_in_use i (db w)
      /\ db (snd (add_book_to_catalog t a i n w)) = db (world_with_book w t a i n)).
Proof.
  destruct (add_fields_ok_dec t a i n) as [Hf|Hf].
  2:{ destruct (add_book_rejects w t a i n (or_introl Hf)) as [m ->]. left. reflexivity. }
  destruct (isbn_in_use_dec i (db w)) as [Hu|Hu].
  { destruct (add_book_rejects w t a i n (or_intror Hu)) as [m ->]. left. reflexivity. }
  rewrite (add_book_commits w t a i n Hf Hu).
  destruct (disk w (writes w)); [right|left]; auto.
Qed.

Lemma serve_all_cons (q : Request) (qs : list Request) (w : World) :
  serve_all (q :: qs) w =
    ((q, fst (serve q w)) :: fst (serve_all qs (snd (serve q w))),
     snd (serve_all qs (snd (serve q w)))).
Proof.
  cbn [serve_all]. unfold bind, ret. destruct (serve q w) as [r w1]. cbn [fst snd].
  destruct (serve_all qs w1) as [rs w2]. reflexivity.
Qed.

Lemma serve_records_kept (q : Request) (w : World) :
  records_kept (borrow_records (db w)) (borrow_records (db (snd (serve q w)))).
Proof.
  destruct q as [t a i n|o]; cbn [serve].
  - destruct (add_book_effect w t a i n) as [->|(_ & _ & ->)]; apply records_kept_refl.
  - apply engine_effect_records_kept with (o := o), exec_effect.
Qed.

(** X5. No sequence of requests, whatever fails in it, deletes a borrow
    record or rewrites one: every record stays in its place with its patron,
    book, borrow date and due date; its return date changes only from none to
    the date it was closed; new records come after the old ones. *)
Theorem borrow_records_are_kept (qs : list Request) (w : World) :
  records_kept (borrow_records (db w)) (borrow_records (db (snd (serve_all qs w)))).
Proof.
  revert w. induction qs as [|q qs IH]; intros w; [apply records_kept_refl|].
  rewrite serve_all_cons. cbn [snd].
  exact (records_kept_trans _ _ _ (serve_records_kept q w) (IH _)).
Qed.

(** ** Fees by the day *)

Lemma fee_for_days_cents (d : Z) :
  0 < d -> (fee_for_days d == inject_Z (fee_cents d) / 100)%Q.
Proof.
  intros Hd. unfold fee_for_days, fee_cents. cbv zeta.
  destruct (Z.leb_spec d 0); [lia|].
  destruct (Z.leb_spec d 7).
  - destruct (Money.gtb _ _) eqn:G.
    { apply gtb_spec in G. revert G. unfold Qlt. cbn. lia. }
    rewrite Z.min_l by lia.
    rewrite (round2_cents _ (50 * d)); unfold Qeq; cbn; lia.
  - destruct (Money.gtb _ _) eqn:G.
    + apply gtb_spec in G. rewrite Z.min_r by (revert G; unfold Qlt; cbn; lia).
      rewrite (round2_cents _ 1500); reflexivity.
    + assert (L : ~ (15.00 < 7 * 0.50 + inject_Z (d - 7) * 1.00)%Q).
      { intros L. apply gtb_spec in L. congruence. }
      apply Qnot_lt_le in L. rewrite Z.min_l by (revert L; unfold Qle; cbn; lia).
      rewrite (round2_cents _ (350 + 100 * (d - 7))); unfold Qeq; cbn; lia.
Qed.

(** The assessment in terms of the overdue days of the record assessed. *)
Lemma calculate_by_days (w : World) (p : string) (b : Z) (r : BorrowRecord) :
  select_latest_record p b (db w) = Some r ->
  fst (calculate_late_fee_for_book p b w) =
    if days_late r w <=? 0 then mkFee 0 0 "Not overdue"
    else mkFee (fee_for_days (days_late r w)) (days_late r w) "Overdue".
Proof.
  intros H. rewrite (calculate_unfold w p b r H). fold (days_late r w). cbv zeta.
  destruct (Z.leb_spec (days_late r w) 0); [reflexivity|].
  destruct (Z.ltb_spec 0 (days_late r w)); [reflexivity|lia].
Qed.

Lemma calculate_no_record (w : World) (p : string) (b : Z) :
  select_latest_record p b (db w) = None ->
  calculate_late_fee_for_book p b w = (mkFee 0 0 "No borrow record found", w).
Proof.
  intros H. unfold calculate_late_fee_for_book, bind, query, ret. rewrite H. reflexivity.
Qed.

(** The fee is its day count's fee in cents, in every case. *)
Lemma calculate_fee_cents (w : World) (p : string) (b : Z) :
  let a := fst (calculate_late_fee_for_book p b w) in
  (fee_amount a == inject_Z (fee_cents (days_overdue a)) / 100)%Q
  /\ 0 <= days_overdue a
  /\ (status a = "Overdue" /\ 0 < days_overdue a
      \/ status a <> "Overdue" /\ days_overdue a = 0).
Proof.
  cbv zeta. destruct (select_latest_record p b (db w)) as [r|] eqn:Hs.
  - rewrite (calculate_by_days w p b r Hs).
    destruct (Z.leb_spec (days_late r w) 0).
    + cbn. split; [reflexivity|]. split; [lia|]. right. split; [discriminate|reflexivity].
    + cbn [fee_amount days_overdue status]. split; [apply fee_for_days_cents; lia|].
      split; [lia|]. left. split; [reflexivity|lia].
  - rewrite (calculate_no_record w p b Hs). cbn.
    split; [reflexivity|]. split; [lia|]. right. split; [discriminate|reflexivity].
Qed.

(** X11. Every assessment has a fee between 0.00 and 15.00 that is a whole
    number of cents, and a day count that is not negative; the fee is above 0
    exactly when the day count is, which is exactly when the status is
    [Overdue]; and the fee is the full 15.00 exactly from the 19th overdue day
    on. *)
Theorem fee_assessment_range (w : World) (p : string) (b : Z) :
  let a := fst (calculate_late_fee_for_book p b w) in
  (0 <= fee_amount a)%Q /\ (fee_amount a <= 15.00)%Q
  /\ (exists c : Z, (fee_amount a == inject_Z c / 100)%Q)
  /\ 0 <= days_overdue a
  /\ ((0 < fee_amount a)%Q <-> 0 < days_overdue a)
  /\ (status a = "Overdue" <-> 0 < days_overdue a)
  /\ ((fee_amount a == 15.00)%Q <-> 19 <= days_overdue a).
Proof.
  cbv zeta. destruct (calculate_fee_cents w p b) as (Hfee & Hd & Hst).
  set (a := fst (calculate_late_fee_for_book p b w)) in *.
  assert (Hc : 0 <= fee_cents (days_overdue a) <= 1500)
    by (unfold fee_cents;
        destruct (Z.leb_spec (days_overdue a) 0), (Z.leb_spec (days_overdue a) 7); lia).
  assert (Hpos : 0 < fee_cents (days_overdue a) <-> 0 < days_overdue a).
  { unfold fee_cents. destruct (Z.leb_spec (days_overdue a) 0), (Z.leb_spec (days_overdue a) 7);
      lia. }
  assert (Hcap : fee_cents (days_overdue a) = 1500 <-> 19 <= days_overdue a).
  { unfold fee_cents. destruct (Z.leb_spec (days_overdue a) 0), (Z.leb_spec (days_overdue a) 7);
      lia. }
  repeat split.
  - rewrite Hfee. unfold Qle. cbn. lia.
  - rewrite Hfee. unfold Qle. cbn. lia.
  - eauto.
  - exact Hd.
  - rewrite Hfee. intros H. apply Hpos. revert H. unfold Qlt. cbn. lia.
  - intros H. rewrite Hfee. apply Hpos in H. unfold Qlt. cbn. lia.
  - intros H. destruct Hst as [[_ ?]|[? _]]; [assumption|contradiction].
  - intros H. destruct Hst as [[? _]|[_ ?]]; [assumption|lia].
  - intros H. apply Hcap. rewrite Hfee in H. revert H. unfold Qeq. cbn. lia.
  - intros H. rewrite Hfee. apply Hcap in H. rewrite H. reflexivity.
Qed.

Lemma fee_cents_mono (d1 d2 : Z) : d1 <= d2 -> fee_cents d1 <= fee_cents d2.
Proof.
  intros H. unfold fee_cents.
  destruct (Z.leb_spec d1 0), (Z.leb_spec d1 7), (Z.leb_spec d2 0), (Z.leb_spec d2 7); lia.
Qed.

Lemma calculate_days (w : World) (p : string) (b : Z) (r : BorrowRecord) :
  select_latest_record p b (db w) = Some r ->
  days_overdue (fst (calculate_late_fee_for_book p b w)) = Z.max 0 (days_late r w).
Proof.
  intros H. rewrite (calculate_by_days w p b r H).
  destruct (Z.leb_spec (days_late r w) 0); cbn; lia.
Qed.

(** X12. Against the same store, a later reading of the clock never gives
    fewer overdue days or a smaller fee: the fee of a loan only grows while it
    is open, and is fixed once it is returned. *)
Theorem fee_grows_with_time (w1 w2 : World) (p : string) (b : Z) :
  db w1 = db w2 ->
  clock w1 (ticks w1) <= clock w2 (ticks w2) ->
  days_overdue (fst (calculate_late_fee_for_book p b w1))
    <= days_overdue (fst (calculate_late_fee_for_book p b w2))
  /\ (fee_amount (fst (calculate_late_fee_for_book p b w1))
      <= fee_amount (fst (calculate_late_fee_for_book p b w2)))%Q.
Proof.
  intros Hdb Hclock.
  assert (Hdays : days_overdue (fst (calculate_late_fee_for_book p b w1))
                  <= days_overdue (fst (calculate_late_fee_for_book p b w2))).
  { destruct (select_latest_record p b (db w1)) as [r|] eqn:Hs.
    - rewrite (calculate_days w1 p b r Hs). rewrite Hdb in Hs.
      rewrite (calculate_days w2 p b r Hs).
      assert (days_late r w1 <= days_late r w2); [|lia].
      unfold days_late, PyTime.days_between, reference_instant.
      apply Z.div_le_mono; [reflexivity|]. destruct (return_date r); [reflexivity|].
      apply Z.sub_le_mono_r. exact Hclock.
    - rewrite (calculate_no_record w1 p b Hs). rewrite Hdb in Hs.
      rewrite (calculate_no_record w2 p b Hs). reflexivity. }
  split; [exact Hdays|].
  destruct (calculate_fee_cents w1 p b) as (-> & _).
  destruct (calculate_fee_cents w2 p b) as (-> & _).
  apply fee_cents_mono in Hdays. revert Hdays.
  generalize (fee_cents (days_overdue (fst (calculate_late_fee_for_book p b w1))))
             (fee_cents (days_overdue (fst (calculate_late_fee_for_book p b w2)))).
  intros c1 c2 Hc. unfold Qle. cbn. lia.
Qed.

Lemma fee_grows_with_time_witness :
  (fee_amount (fst (calculate_late_fee_for_book "123456" 1 (world_at db_open_loan (day 17))))
   <= fee_amount (fst (calculate_late_fee_for_book "123456" 1
                         (world_at db_open_loan (day 40)))))%Q.
Proof.
  apply (fee_grows_with_time (world_at db_open_loan (day 17)) (world_at db_open_loan (day 40))
           "123456" 1 eq_refl).
  vm_compute. discriminate.
Defined.

(** ** The store stays well formed *)

Lemma fields_ok_same_columns (b b' : Book) :
  same_columns b b' -> book_fields_ok b -> book_fields_ok b'.
Proof.
  unfold same_columns, book_fields_ok. intros (-> & -> & -> & ->). auto.
Qed.

Lemma exec_book_before (o : Op) (w : World) (k : Z) (b' : Book) :
  books (db (snd (exec o w))) !! k = Some b' ->
  exists b, books (db w) !! k = Some b /\ same_columns b b'.
Proof.
  intros H. pose proof (engine_effect_columns w o _ k (exec_effect o w)) as Hc.
  rewrite H in Hc. destruct (books (db w) !! k) as [b|]; [eauto|contradiction].
Qed.

Lemma exec_book_after (o : Op) (w : World) (k : Z) :
  is_Some (books (db w) !! k) -> is_Some (books (db (snd (exec o w))) !! k).
Proof.
  intros [b H]. pose proof (engine_effect_columns w o _ k (exec_effect o w)) as Hc.
  rewrite H in Hc. destruct (books (db (snd (exec o w))) !! k); [eauto|contradiction].
Qed.

Lemma record_ok_mono (d d' : DB) (r : BorrowRecord) :
  (forall k, is_Some (books d !! k) -> is_Some (books d' !! k)) ->
  record_ok d r -> record_ok d' r.
Proof. intros H (H1 & H2 & H3). repeat split; auto. Qed.

Lemma record_ok_close (d : DB) (p : string) (bid t : Z) (r : BorrowRecord) :
  record_ok d r -> record_ok d (close_record p bid t r).
Proof.
  unfold close_record. destruct (of_pair p bid r && is_open r); [|auto].
  intros (H1 & H2 & H3). repeat split; assumption.
Qed.

Lemma exec_store_ok (o : Op) (w : World) :
  store_ok (db w) -> store_ok (db (snd (exec o w))).
Proof.
  intros (Hbooks & Huniq & Hrec). split; [|split].
  - intros k b' Hk. destruct (exec_book_before o w k b' Hk) as (b & Hb & Hc). split.
    + exact (fields_ok_same_columns _ _ Hc (proj1 (Hbooks k b Hb))).
    + apply (exec_keeps_non_negative o w) with (id := k); [|exact Hk].
      intros id b0 H0. exact (proj2 (Hbooks id b0 H0)).
  - intros k1 k2 b1' b2' H1 H2 Hi.
    destruct (exec_book_before o w k1 b1' H1) as (b1 & Hb1 & (_ & _ & Hi1 & _)).
    destruct (exec_book_before o w k2 b2' H2) as (b2 & Hb2 & (_ & _ & Hi2 & _)).
    apply (Huniq k1 k2 b1 b2 Hb1 Hb2). congruence.
  - assert (Hmono : Forall (record_ok (db (snd (exec o w)))) (borrow_records (db w))).
    { eapply Forall_impl; [exact Hrec|]. intros r. apply record_ok_mono.
      intros k. apply exec_book_after. }
    pose proof (exec_book_after o w) as Hafter.
    destruct (exec_effect o w) as [o'|p bid bk taken Hp Hb Ha Hc|p bid bk r put_back Hp Hb Hs];
      cbn [borrow_records] in *.
    + exact Hmono.
    + apply Forall_app. split; [exact Hmono|]. constructor; [|constructor].
      unfold new_record. repeat split; cbn; [exact Hp|].
      apply Hafter. rewrite Hb. eauto.
    + unfold closed_records. apply Forall_fmap.
      eapply Forall_impl; [exact Hmono|]. intros r'. apply record_ok_close.
Qed.

Lemma add_book_store_ok (w : World) (t a i : string) (n : Z) :
  store_ok (db w) -> store_ok (db (snd (add_book_to_catalog t a i n w))).
Proof.
  intros Hok. destruct (add_book_effect w t a i n) as [->|(Hf & Hu & ->)]; [exact Hok|].
  destruct Hok as (Hbooks & Huniq & Hrec).
  pose proof (next_book_id_fresh (books (db w))) as Hfresh.
  unfold world_with_book. cbn [db]. split; [|split]; cbn [books borrow_records].
  - intros k b Hk. rewrite lookup_insert in Hk.
    destruct (decide (next_book_id (books (db w)) = k)) as [_|_].
    + injection Hk as <-. split; [exact Hf|]. cbn. destruct Hf as (_ & _ & _ & _ & _ & Hn). lia.
    + exact (Hbooks k b Hk).
  - intros k1 k2 b1 b2 H1 H2 Hi. cbn [books] in H1, H2.
    rewrite lookup_insert in H1, H2.
    destruct (decide (next_book_id (books (db w)) = k1)) as [E1|N1],
             (decide (next_book_id (books (db w)) = k2)) as [E2|N2].
    + congruence.
    + injection H1 as <-. exfalso. apply Hu. exists k2, b2. split; [exact H2|].
      cbn in Hi. congruence.
    + injection H2 as <-. exfalso. apply Hu. exists k1, b1. split; [exact H1|].
      cbn in Hi. congruence.
    + exact (Huniq k1 k2 b1 b2 H1 H2 Hi).
  - eapply Forall_impl; [exact Hrec|]. intros r. apply record_ok_mono.
    intros k [b Hk]. cbn [books]. rewrite lookup_insert.
    destruct (decide (next_book_id (books (db w)) = k)); eauto.
Qed.

Lemma store_ok_empty : store_ok db_empty.
Proof.
  split; [|split].
  - intros id b H. cbn in H. rewrite lookup_empty in H. discriminate.
  - intros k1 k2 b1 b2 H. cbn in H. rewrite lookup_empty in H. discriminate.
  - constructor.
Qed.

(** X6. Starting from a well-formed store (the empty one is), after any
    sequence of adds, borrows and returns, whatever fails in it: every book has
    a title and an author that are not empty and within 200 and 100
    characters, an ISBN of 13 characters, a positive total and no negative
    number of available copies; no two books have the same ISBN; and every
    borrow record has a valid patron id, a book of the catalog, and a due date
    14 days after its borrow date. *)
Theorem store_stays_well_formed (qs : list Request) (w : World) :
  store_ok (db w) -> store_ok (db (snd (serve_all qs w))).
Proof.
  revert w. induction qs as [|q qs IH]; intros w Hok; [exact Hok|].
  rewrite serve_all_cons. cbn [snd]. apply IH.
  destruct q as [t a i n|o]; cbn [serve];
    [apply add_book_store_ok|apply exec_store_ok]; exact Hok.
Qed.

Lemma store_stays_well_formed_witness :
  store_ok (db (snd (serve_all
    [AddBook "Test Book" "Test Author" "1234567890123" 1;
     Engine (Borrow "123456" 1);
     AddBook "Other" "Author" "1234567890123" 2;
     Engine (Return "123456" 1)]
    (world_failing db_empty 2)))).
Proof.
  apply store_stays_well_formed. split; [|split].
  - intros id b H. cbn in H. rewrite lookup_empty in H. discriminate.
  - intros k1 k2 b1 b2 H. cbn in H. rewrite lookup_empty in H. discriminate.
  - constructor.
Defined.

Lemma open_for_book_unreferenced (k : Z) (l : list BorrowRecord) :
  Forall (fun r => book_id r <> k) l -> open_for_book k l = 0.
Proof.
  induction 1 as [|r l Hr Hl IH]; [reflexivity|].
  rewrite open_for_book_cons, IH. destruct (Z.eqb_spec (book_id r) k); [contradiction|].
  reflexivity.
Qed.

Lemma add_book_stock_accounted (w : World) (t a i : string) (n : Z) :
  store_ok (db w) -> stock_accounted (db w) ->
  stock_accounted (db (snd (add_book_to_catalog t a i n w))).
Proof.
  intros (_ & _ & Hrec) Hst.
  destruct (add_book_effect w t a i n) as [->|(Hf & Hu & ->)]; [exact Hst|].
  pose proof (next_book_id_fresh (books (db w))) as Hfresh.
  unfold world_with_book. cbn [db]. intros k b Hk. cbn [books borrow_records] in *.
  rewrite lookup_insert in Hk.
  destruct (decide (next_book_id (books (db w)) = k)) as [<-|_].
  - injection Hk as <-. cbn [available_copies total_copies].
    rewrite open_for_book_unreferenced.
    + destruct Hf as (_ & _ & _ & _ & _ & Hn). lia.
    + eapply Forall_impl; [exact Hrec|]. intros r (_ & [b Hb] & _) E.
      rewrite E in Hb. congruence.
  - exact (Hst k b Hk).
Qed.

Lemma serve_all_stock_accounted (qs : list Request) (w : World) :
  store_ok (db w) -> stock_accounted (db w) ->
  existsb request_lost_decrement (fst (serve_all qs w)) = false ->
  stock_accounted (db (snd (serve_all qs w))).
Proof.
  revert w. induction qs as [|q qs IH]; intros w Hok Hst Hlost; [exact Hst|].
  rewrite serve_all_cons in *. cbn [fst snd existsb] in *.
  apply orb_false_elim in Hlost. destruct Hlost as [H1 H2].
  apply IH; [| |exact H2].
  - destruct q as [t a i n|o]; cbn [serve];
      [apply add_book_store_ok|apply exec_store_ok]; exact Hok.
  - destruct q as [t a i n|o]; cbn [serve request_lost_decrement] in *.
    + apply add_book_stock_accounted; assumption.
    + apply exec_keeps_stock_accounted; assumption.
Qed.

(** X7. Starting from the empty store, after any sequence of adds, borrows
    and returns in which no borrow lost its decrement (record inserted, then
    the availability update failed), every book has between 0 and its total
    number of copies available, and its available copies and open loans
    together do not exceed the total. *)
Theorem copies_in_range_with_adds (qs : list Request) (w : World) :
  db w = db_empty ->
  existsb request_lost_decrement (fst (serve_all qs w)) = false ->
  copies_in_range (db (snd (serve_all qs w)))
  /\ stock_accounted (db (snd (serve_all qs w))).
Proof.
  intros He Hlost.
  assert (Hst : stock_accounted (db (snd (serve_all qs w)))).
  { apply serve_all_stock_accounted; [rewrite He; apply store_ok_empty| |exact Hlost].
    rewrite He. intros k b H. cbn in H. rewrite lookup_empty in H. discriminate. }
  split; [apply stock_accounted_in_range|]; exact Hst.
Qed.

Lemma copies_in_range_with_adds_witness :
  copies_in_range (db (snd (serve_all
    [AddBook "Test Book" "Test Author" "1234567890123" 1;
     Engine (Borrow "123456" 1);
     AddBook "Other" "Author" "1234567890124" 2;
     Engine (Borrow "123456" 2);
     Engine (Return "123456" 1)]
    (world_failing db_empty 4)))).
Proof.
  apply copies_in_range_with_adds; [reflexivity|vm_compute; reflexivity].
Defined.

Lemma serve_catalog_extends (q : Request) (w : World) :
  catalog_extends (books (db w)) (books (db (snd (serve q w)))).
Proof.
  intros k b Hk. destruct q as [t a i n|o]; cbn [serve].
  - destruct (add_book_effect w t a i n) as [->|(_ & _ & ->)].
    + exists b. split; [exact Hk|apply same_columns_refl].
    + exists b. split; [|apply same_columns_refl].
      unfold world_with_book. cbn [db books]. rewrite lookup_insert_ne; [exact Hk|].
      intros <-. rewrite next_book_id_fresh in Hk. discriminate.
  - pose proof (engine_effect_columns w o _ k (exec_effect o w)) as Hc.
    rewrite Hk in Hc. destruct (books (db (snd (exec o w))) !! k) as [b'|]; [eauto|contradiction].
Qed.

Lemma serve_all_catalog_extends (qs : list Request) (w : World) :
  catalog_extends (books (db w)) (books (db (snd (serve_all qs w)))).
Proof.
  revert w. induction qs as [|q qs IH]; intros w.
  - intros k b Hk. exists b. split; [exact Hk|apply same_columns_refl].
  - rewrite serve_all_cons. cbn [snd]. intros k b Hk.
    destruct (serve_catalog_extends q w k b Hk) as (b1 & H1 & C1).
    destruct (IH _ k b1 H1) as (b2 & H2 & C2).
    exists b2. split; [exact H2|exact (same_columns_trans _ _ _ C1 C2)].
Qed.

Lemma add_book_duplicate (w : World) (t a i : string) (n : Z) :
  add_fields_ok t a i n -> isbn_in_use i (db w) ->
  add_book_to_catalog t a i n w = ((false, "A book with this ISBN already exists."), w).
Proof.
  intros (Ht & Htl & Ha & Hal & Hi & Hn) Hu. unfold add_book_to_catalog.
  apply strip_not_empty in Ht, Ha. rewrite Ht, Ha.
  destruct (Nat.ltb_spec 200 (PyStr.len (PyStr.strip t))); [lia|].
  destruct (Nat.ltb_spec 100 (PyStr.len (PyStr.strip a))); [lia|].
  rewrite Hi. cbn [Nat.eqb negb]. destruct (Z.leb_spec n 0); [lia|].
  unfold bind at 1. destruct (get_book_by_isbn i w) as [[r|] w1] eqn:Hg.
  - unfold get_book_by_isbn, query in Hg. injection Hg as _ <-. reflexivity.
  - exfalso. assert (fst (get_book_by_isbn i w) = None) as Hnone by (rewrite Hg; reflexivity).
    apply get_book_by_isbn_None in Hnone. contradiction.
Qed.

(** X8. Once a book was added with an ISBN, every later add with that ISBN is
    refused, whatever was requested in between and whatever failed: the add
    changes nothing, and when its fields pass the checks its message is that a
    book with this ISBN already exists. *)
Theorem isbn_stays_taken (w w1 : World) (t a i : string) (n : Z) (m : string)
  (qs : list Request) (t' a' : string) (n' : Z) :
  add_book_to_catalog t a i n w = ((true, m), w1) ->
  let w2 := snd (serve_all qs w1) in
  fst (fst (add_book_to_catalog t' a' i n' w2)) = false
  /\ snd (add_book_to_catalog t' a' i n' w2) = w2
  /\ (add_fields_ok t' a' i n' ->
      snd (fst (add_book_to_catalog t' a' i n' w2))
        = "A book with this ISBN already exists.").
Proof.
  intros Hadd w2.
  destruct (add_book_stored w w1 t a i n m Hadd) as (_ & Hnew & _).
  destruct (serve_all_catalog_extends qs w1 _ _ Hnew) as (b' & Hb' & (_ & _ & Hi & _)).
  assert (Hu : isbn_in_use i (db w2)) by (exists (next_book_id (books (db w))), b'; auto).
  destruct (add_book_rejects w2 t' a' i n' (or_intror Hu)) as [m' E].
  rewrite E. cbn [fst snd]. split; [reflexivity|]. split; [reflexivity|].
  intros Hf. rewrite (add_book_duplicate w2 t' a' i n' Hf Hu) in E. congruence.
Qed.

Lemma isbn_stays_taken_witness :
  fst (add_book_to_catalog "Another" "Writer" "1234567890123" 5
         (snd (serve_all [Engine (Borrow "123456" 1); Engine (Return "123456" 1)]
                 (snd (add_book_to_catalog "Test Book" "Test Author" "1234567890123" 1
                         (world_at db_empty (day 1)))))))
  = (false, "A book with this ISBN already exists.").
Proof.
  destruct (isbn_stays_taken (world_at db_empty (day 1))
              (snd (add_book_to_catalog "Test Book" "Test Author" "1234567890123" 1
                      (world_at db_empty (day 1))))
              "Test Book" "Test Author" "1234567890123" 1
              (snd (fst (add_book_to_catalog "Test Book" "Test Author" "1234567890123" 1
                           (world_at db_empty (day 1)))))
              [Engine (Borrow "123456" 1); Engine (Return "123456" 1)]
              "Another" "Writer" 5 eq_refl) as (H1 & _ & H3).
  apply injective_projections; [exact H1|].
  apply H3. vm_compute. repeat split; try discriminate; lia.
Defined.

(** ** Loans from borrow to return *)

(** When a borrow succeeds. *)
Lemma borrow_success_conditions (w : World) (p : string) (bid : Z) :
  fst (fst (borrow_book_by_patron p bid w)) = true
  <-> invalid_patron_id p = false
      /\ (exists bk, books (db w) !! bid = Some bk /\ 0 < available_copies bk)
      /\ open_loans p (db w) < 5
      /\ disk w (writes w) = true /\ disk w (S (writes w)) = true.
Proof.
  destruct (invalid_patron_id p) eqn:Hp.
  { destruct (borrow_fails_before_writes w p bid) as [m ->]; [auto|]. cbn.
    split; [discriminate|]. intros (H & _). discriminate. }
  destruct (books (db w) !! bid) as [bk|] eqn:Hb.
  2:{ destruct (borrow_fails_before_writes w p bid) as [m ->]; [auto|]. cbn.
      split; [discriminate|]. intros (_ & (bk & H & _) & _). discriminate. }
  destruct (Z.le_gt_cases (available_copies bk) 0) as [Ha|Ha].
  { destruct (borrow_fails_before_writes w p bid) as [m ->]; [eauto 6|]. cbn.
    split; [discriminate|]. intros (_ & (bk' & H & Ha') & _).
    injection H as <-. lia. }
  destruct (Z.le_gt_cases 5 (open_loans p (db w))) as [Hc|Hc].
  { destruct (borrow_fails_before_writes w p bid) as [m ->]; [auto|]. cbn.
    split; [discriminate|]. intros (_ & _ & H & _). lia. }
  rewrite (borrow_past_checks w p bid bk Hp Hb ltac:(lia) Hc). cbv zeta.
  destruct (disk w (writes w)); [destruct (disk w (S (writes w)))|]; cbn [fst].
  - split; [intros _|reflexivity]. split; [reflexivity|]. split; [exists bk; split; [reflexivity|lia]|].
    split; [lia|]. split; reflexivity.
  - split; [discriminate|]. intros (_ & _ & _ & _ & H). discriminate.
  - split; [discriminate|]. intros (_ & _ & _ & H & _). discriminate.
Qed.

(** X9. A borrow succeeds exactly when the patron id is valid, the book is in
    the catalog with a copy available, the patron holds fewer than 5 open
    loans, and both writes go through. *)
Theorem borrow_succeeds_iff (w : World) (p : string) (bid : Z) :
  fst (fst (borrow_book_by_patron p bid w)) = true
  <-> invalid_patron_id p = false
      /\ (exists bk, books (db w) !! bid = Some bk /\ 0 < available_copies bk)
      /\ open_loans p (db w) < 5
      /\ disk w (writes w) = true /\ disk w (S (writes w)) = true.
Proof. exact (borrow_success_conditions w p bid). Qed.

(** X10. A borrow that succeeds appends one open record of the patron for the
    book, borrowed at the instant the clock reads and due 14 days later, takes
    one copy of that book and touches no other book; its message names the
    title and the due date as year-month-day; the patron then holds one more
    open loan. *)
Theorem borrow_success_effect (w w' : World) (p : string) (bid : Z) (m : string) :
  borrow_book_by_patron p bid w = ((true, m), w') ->
  exists bk,
    books (db w) !! bid = Some bk
    /\ db w' = mkDB (books_adjusted (db w) bid (-1))
                    (borrow_records (db w) ++ [new_record w p bid])
    /\ books (db w') !! bid = Some (with_available (available_copies bk - 1) bk)
    /\ (forall k, k <> bid -> books (db w') !! k = books (db w) !! k)
    /\ m = borrowed_message bk (due_date (new_record w p bid))
    /\ open_loans p (db w') = open_loans p (db w) + 1
    /\ ticks w' = S (ticks w) /\ writes w' = S (S (writes w)).
Proof.
  intros Hbor.
  assert (Hs : fst (fst (borrow_book_by_patron p bid w)) = true) by (rewrite Hbor; reflexivity).
  apply borrow_success_conditions in Hs. destruct Hs as (Hp & (bk & Hb & Ha) & Hc & Hd1 & Hd2).
  rewrite (borrow_past_checks w p bid bk Hp Hb Ha Hc) in Hbor. cbv zeta in Hbor.
  rewrite Hd1, Hd2 in Hbor. injection Hbor as <- <-.
  exists bk. cbn [db books borrow_records ticks writes].
  split; [exact Hb|]. split; [reflexivity|].
  split; [fold (books_adjusted (db w) bid (-1)); rewrite books_adjusted_lookup,
            decide_True, Hb by reflexivity; reflexivity|].
  split; [intros k Hk; apply lookup_alter_ne; congruence|].
  split; [reflexivity|].
  split; [|auto]. apply open_loans_after_insert.
Qed.

Lemma borrow_success_effect_witness :
  exists bk,
    books db_one_book !! 1 = Some bk
    /\ db (snd (borrow_book_by_patron "123456" 1 (world_at db_one_book (day 3))))
       = mkDB (books_adjusted db_one_book 1 (-1))
              [mkBorrowRecord "123456" 1 (day 3) (day 17) None].
Proof.
  destruct (borrow_success_effect (world_at db_one_book (day 3))
              (snd (borrow_book_by_patron "123456" 1 (world_at db_one_book (day 3))))
              "123456" 1
              (snd (fst (borrow_book_by_patron "123456" 1 (world_at db_one_book (day 3)))))
              eq_refl) as (bk & H1 & H2 & _).
  exists bk. split; [exact H1|exact H2].
Defined.

(** A return past its checks whose two writes go through. *)
Lemma return_commits (w : World) (p : string) (bid : Z) (bk : Book) (r : BorrowRecord) :
  invalid_patron_id p = false ->
  books (db w) !! bid = Some bk ->
  select_open_record p bid (db w) = Some r ->
  return_book_by_patron p bid w =
    if disk w (writes w) then
      if disk w (S (writes w)) then
        ((true, return_text bk (fst (calculate_late_fee_for_book p bid
                                        (world_returned w p bid)))),
         snd (calculate_late_fee_for_book p bid (world_returned w p bid)))
      else ((false, msg_db_availability),
            mkWorld (mkDB (books (db w)) (closed_records w p bid))
                    (clock w) (S (ticks w)) (disk w) (S (S (writes w))))
    else ((false, msg_db_return_date),
          mkWorld (db w) (clock w) (S (ticks w)) (disk w) (S (writes w))).
Proof.
  intros Hp Hb Hs. unfold return_book_by_patron. rewrite Hp.
  unfold bind at 1. unfold get_book_by_id, query. rewrite Hb.
  unfold bind at 1. rewrite Hs.
  unfold bind at 1. unfold datetime_now.
  unfold bind at 1. unfold update_borrow_record_return_date, commit.
  cbn [db clock ticks disk writes].
  destruct (disk w (writes w)); cbn [negb]; [|reflexivity].
  unfold bind at 1. unfold update_book_availability, commit.
  cbn [db clock ticks disk writes].
  destruct (disk w (S (writes w))); cbn [negb]; [|reflexivity].
  unfold bind, return_text, world_returned, books_adjusted, closed_records.
  cbn [db books borrow_records].
  match goal with
  | |- context [calculate_late_fee_for_book p bid ?w3] =>
      destruct (calculate_late_fee_for_book p bid w3) as [a w4]
  end.
  cbn [fst snd]. destruct (Money.gtb (fee_amount a) 0); reflexivity.
Qed.

(** When a return succeeds. *)
Lemma return_success_conditions (w : World) (p : string) (bid : Z) :
  fst (fst (return_book_by_patron p bid w)) = true
  <-> invalid_patron_id p = false
      /\ is_Some (books (db w) !! bid)
      /\ is_Some (select_open_record p bid (db w))
      /\ disk w (writes w) = true /\ disk w (S (writes w)) = true.
Proof.
  destruct (invalid_patron_id p) eqn:Hp.
  { destruct (return_fails_before_writes w p bid) as [m ->]; [auto|]. cbn.
    split; [discriminate|]. intros (H & _). discriminate. }
  destruct (books (db w) !! bid) as [bk|] eqn:Hb.
  2:{ destruct (return_fails_before_writes w p bid) as [m ->]; [auto|]. cbn.
      split; [discriminate|]. intros (_ & [? H] & _). discriminate. }
  destruct (select_open_record p bid (db w)) as [r|] eqn:Hs.
  2:{ destruct (return_fails_before_writes w p bid) as [m ->]; [auto|]. cbn.
      split; [discriminate|]. intros (_ & _ & [? H] & _). discriminate. }
  rewrite (return_commits w p bid bk r Hp Hb Hs).
  destruct (disk w (writes w)); [destruct (disk w (S (writes w)))|]; cbn [fst].
  - split; [intros _|reflexivity]. repeat split; eauto.
  - split; [discriminate|]. intros (_ & _ & _ & _ & H). discriminate.
  - split; [discriminate|]. intros (_ & _ & _ & H & _). discriminate.
Qed.

(** X13. A return succeeds exactly when the patron id is valid, the book is
    in the catalog, the patron has an open record for it, and both writes go
    through. *)
Theorem return_succeeds_iff (w : World) (p : string) (bid : Z) :
  fst (fst (return_book_by_patron p bid w)) = true
  <-> invalid_patron_id p = false
      /\ is_Some (books (db w) !! bid)
      /\ is_Some (select_open_record p bid (db w))
      /\ disk w (writes w) = true /\ disk w (S (writes w)) = true.
Proof. exact (return_success_conditions w p bid). Qed.

Section ClosingRecords.

Variables (p : string) (bid : Z) (t : Z).

Lemma close_record_of_pair (p' : string) (b' : Z) (r : BorrowRecord) :
  of_pair p' b' (close_record p bid t r) = of_pair p' b' r.
Proof. unfold close_record. destruct (of_pair p bid r && is_open r); reflexivity. Qed.

Lemma close_record_borrow_date (r : BorrowRecord) :
  borrow_date (close_record p bid t r) = borrow_date r.
Proof. unfold close_record. destruct (of_pair p bid r && is_open r); reflexivity. Qed.

(** After the close no record of the pair is open. *)
Lemma close_leaves_none_open (l : list BorrowRecord) :
  List.filter (fun r => of_pair p bid r && is_open r) (map (close_record p bid t) l) = [].
Proof.
  induction l as [|r l IH]; [reflexivity|]. cbn [map List.filter]. rewrite IH.
  unfold close_record at 1 2. destruct (of_pair p bid r && is_open r) eqn:E.
  - cbn [is_open with_return_date return_date]. rewrite andb_false_r. reflexivity.
  - rewrite E. reflexivity.
Qed.

Lemma filter_pair_close (l : list BorrowRecord) :
  List.filter (of_pair p bid) (map (close_record p bid t) l)
  = map (close_record p bid t) (List.filter (of_pair p bid) l).
Proof.
  induction l as [|r l IH]; [reflexivity|]. cbn [map List.filter].
  rewrite close_record_of_pair, IH. destruct (of_pair p bid r); reflexivity.
Qed.

Lemma latest_close (l : list BorrowRecord) :
  latest_by_borrow_date (map (close_record p bid t) l)
  = close_record p bid t <$> latest_by_borrow_date l.
Proof.
  induction l as [|r l IH]; [reflexivity|]. cbn [map latest_by_borrow_date]. rewrite IH.
  destruct (latest_by_borrow_date l) as [r'|]; cbn [fmap option_fmap option_map]; [|reflexivity].
  rewrite !close_record_borrow_date. destruct (borrow_date r <? borrow_date r'); reflexivity.
Qed.

End ClosingRecords.

Lemma latest_in (l : list BorrowRecord) (r : BorrowRecord) :
  latest_by_borrow_date l = Some r -> In r l.
Proof.
  revert r. induction l as [|a l IH]; intros r; [discriminate|]. cbn [latest_by_borrow_date].
  destruct (latest_by_borrow_date l) as [r'|].
  - destruct (borrow_date a <? borrow_date r'); intros E; injection E as <-.
    + right. apply IH. reflexivity.
    + left. reflexivity.
  - intros E. injection E as <-. left. reflexivity.
Qed.

(** The record the calculation assesses after a return: the latest record of
    the pair, closed by the return if it was open. *)
Lemma latest_after_return (w : World) (p : string) (bid : Z) :
  select_latest_record p bid (db (world_returned w p bid))
  = close_record p bid (clock w (ticks w)) <$> select_latest_record p bid (db w).
Proof.
  unfold select_latest_record, world_returned, closed_records. cbn [db borrow_records].
  rewrite filter_pair_close. apply latest_close.
Qed.

(** The store after a successful return. *)
Lemma return_success_store (w w' : World) (p : string) (bid : Z) (m : string) :
  return_book_by_patron p bid w = ((true, m), w') ->
  exists bk,
    books (db w) !! bid = Some bk
    /\ db w' = mkDB (books_adjusted (db w) bid 1) (closed_records w p bid)
    /\ books (db w') !! bid = Some (with_available (available_copies bk + 1) bk)
    /\ (forall k, k <> bid -> books (db w') !! k = books (db w) !! k)
    /\ select_open_record p bid (db w') = None
    /\ writes w' = S (S (writes w)).
Proof.
  intros Hret.
  assert (Hs : fst (fst (return_book_by_patron p bid w)) = true) by (rewrite Hret; reflexivity).
  apply return_success_conditions in Hs. destruct Hs as (Hp & [bk Hb] & [r Hr] & Hd1 & Hd2).
  rewrite (return_commits w p bid bk r Hp Hb Hr), Hd1, Hd2 in Hret.
  injection Hret as _ <-.
  destruct (calculate_effects (world_returned w p bid) p bid) as (Edb & Ew & _).
  exists bk. rewrite Edb, Ew. unfold world_returned. cbn [db books borrow_records writes].
  split; [exact Hb|]. split; [reflexivity|].
  split; [rewrite books_adjusted_lookup, decide_True, Hb by reflexivity; reflexivity|].
  split; [intros k Hk; apply lookup_alter_ne; congruence|].
  split; [|reflexivity].
  unfold select_open_record, closed_records. cbn [borrow_records].
  rewrite close_leaves_none_open. reflexivity.
Qed.

(** X14. A return that succeeds sets the return date of every open record of
    the patron for the book to the instant the clock reads, puts one copy of
    that book back and touches no other book; afterwards the patron has no
    open record for the book. *)
Theorem return_success_effect (w w' : World) (p : string) (bid : Z) (m : string) :
  return_book_by_patron p bid w = ((true, m), w') ->
  exists bk,
    books (db w) !! bid = Some bk
    /\ db w' = mkDB (books_adjusted (db w) bid 1) (closed_records w p bid)
    /\ books (db w') !! bid = Some (with_available (available_copies bk + 1) bk)
    /\ (forall k, k <> bid -> books (db w') !! k = books (db w) !! k)
    /\ select_open_record p bid (db w') = None
    /\ writes w' = S (S (writes w)).
Proof. exact (return_success_store w w' p bid m). Qed.

Lemma return_success_effect_witness :
  exists bk,
    books db_open_loan !! 1 = Some bk
    /\ db (snd (return_book_by_patron "123456" 1 (world_at db_open_loan (day 20))))
       = db_closed_loan.
Proof.
  destruct (return_success_effect (world_at db_open_loan (day 20))
              (snd (return_book_by_patron "123456" 1 (world_at db_open_loan (day 20))))
              "123456" 1
              (snd (fst (return_book_by_patron "123456" 1 (world_at db_open_loan (day 20)))))
              eq_refl) as (bk & H1 & H2 & _).
  exists bk. split; [exact H1|]. rewrite H2. vm_compute. reflexivity.
Defined.

(** X15. A loan cannot be returned twice: right after a successful return,
    the same return fails with the message that no active borrow record was
    found, and changes nothing. *)
Theorem return_twice_fails (w w' : World) (p : string) (bid : Z) (m : string) :
  return_book_by_patron p bid w = ((true, m), w') ->
  return_book_by_patron p bid w' = ((false, msg_no_active_record), w').
Proof.
  intros Hret.
  destruct (return_success_store w w' p bid m Hret) as (bk & Hb & _ & Hb' & _ & Hnone & _).
  assert (Hs : fst (fst (return_book_by_patron p bid w)) = true) by (rewrite Hret; reflexivity).
  apply return_success_conditions in Hs. destruct Hs as (Hp & _).
  exact (return_no_open_record w' p bid _ Hp Hb' Hnone).
Qed.

Lemma return_twice_fails_witness :
  fst (return_book_by_patron "123456" 1
         (snd (return_book_by_patron "123456" 1 (world_at db_open_loan (day 20)))))
  = (false, msg_no_active_record).
Proof.
  rewrite (return_twice_fails (world_at db_open_loan (day 20))
             (snd (return_book_by_patron "123456" 1 (world_at db_open_loan (day 20))))
             "123456" 1
             (snd (fst (return_book_by_patron "123456" 1 (world_at db_open_loan (day 20)))))
             eq_refl).
  reflexivity.
Defined.

Lemma fee_for_days_positive (d : Z) : 0 < d -> Money.gtb (fee_for_days d) 0 = true.
Proof.
  intros Hd. apply gtb_spec. rewrite (fee_for_days_cents d Hd).
  assert (0 < fee_cents d)
    by (unfold fee_cents; destruct (Z.leb_spec d 0), (Z.leb_spec d 7); lia).
  unfold Qlt. cbn. lia.
Qed.

(** The text of a successful return when the latest record of the pair was
    the open one. *)
Lemma return_text_by_days (w : World) (p : string) (bid : Z) (bk : Book) (r : BorrowRecord) :
  select_latest_record p bid (db w) = Some r -> return_date r = None ->
  return_text bk (fst (calculate_late_fee_for_book p bid (world_returned w p bid)))
  = returned_message bk (PyTime.days_between (clock w (ticks w)) (due_date r)).
Proof.
  intros Hl Hopen.
  assert (Hpair : of_pair p bid r = true).
  { unfold select_latest_record in Hl. apply latest_in, filter_In in Hl. tauto. }
  assert (Hl' : select_latest_record p bid (db (world_returned w p bid))
                = Some (with_return_date (clock w (ticks w)) r)).
  { rewrite latest_after_return, Hl. cbn. unfold close_record, is_open.
    rewrite Hpair, Hopen. reflexivity. }
  rewrite (calculate_by_days _ p bid _ Hl'). unfold days_late, reference_instant.
  cbn [with_return_date return_date due_date].
  unfold return_text, returned_message.
  destruct (Z.leb_spec (PyTime.days_between (clock w (ticks w)) (due_date r)) 0) as [Hd|Hd].
  - reflexivity.
  - cbn [fee_amount days_overdue]. rewrite (fee_for_days_positive _ Hd). reflexivity.
Qed.

(** X16. When the latest record of the patron for the book is the open one,
    a successful return reports, after the title, no late fees if the return
    comes less than one whole day after the due date, and otherwise the fee
    for the whole days since the due date with that number of days; the
    calculation made for the message reads no clock of its own. *)
Theorem return_reports_late_fee (w w' : World) (p : string) (bid : Z) (m : string)
  (r : BorrowRecord) :
  return_book_by_patron p bid w = ((true, m), w') ->
  select_latest_record p bid (db w) = Some r -> return_date r = None ->
  exists bk,
    books (db w) !! bid = Some bk
    /\ m = returned_message bk (PyTime.days_between (clock w (ticks w)) (due_date r))
    /\ ticks w' = S (ticks w).
Proof.
  intros Hret Hl Hopen.
  assert (Hs : fst (fst (return_book_by_patron p bid w)) = true) by (rewrite Hret; reflexivity).
  destruct (invalid_patron_id p) eqn:Hp.
  { destruct (return_fails_before_writes w p bid) as [m' E]; [auto|].
    rewrite E in Hs. discriminate. }
  destruct (books (db w) !! bid) as [bk|] eqn:Hb.
  2:{ destruct (return_fails_before_writes w p bid) as [m' E]; [auto|].
      rewrite E in Hs. discriminate. }
  destruct (select_open_record p bid (db w)) as [r0|] eqn:Hr.
  2:{ destruct (return_fails_before_writes w p bid) as [m' E]; [auto|].
      rewrite E in Hs. discriminate. }
  rewrite (return_commits w p bid bk r0 Hp Hb Hr) in Hret.
  destruct (disk w (writes w)); [|discriminate].
  destruct (disk w (S (writes w))); [|discriminate].
  injection Hret as <- <-. exists bk. split; [reflexivity|].
  split; [apply (return_text_by_days w p bid bk r Hl Hopen)|].
  destruct (calculate_effects (world_returned w p bid) p bid) as (_ & _ & _ & _ & ->).
  assert (Hl' : select_latest_record p bid (db (world_returned w p bid))
                = Some (close_record p bid (clock w (ticks w)) r))
    by (rewrite latest_after_return, Hl; reflexivity).
  unfold reads_clock. rewrite Hl'. unfold close_record, is_open.
  assert (Hpair : of_pair p bid r = true).
  { unfold select_latest_record in Hl. apply latest_in, filter_In in Hl. tauto. }
  rewrite Hpair, Hopen. cbn. lia.
Qed.

Lemma return_reports_late_fee_witness :
  exists bk,
    books db_open_loan !! 1 = Some bk
    /\ snd (fst (return_book_by_patron "123456" 1 (world_at db_open_loan (day 25))))
       = "Successfully returned " ++ PyStr.dquote ++ "Test Book" ++ PyStr.dquote
         ++ ". Late fee: $7.50 (11 days overdue).".
Proof.
  destruct (return_reports_late_fee (world_at db_open_loan (day 25))
              (snd (return_book_by_patron "123456" 1 (world_at db_open_loan (day 25))))
              "123456" 1
              (snd (fst (return_book_by_patron "123456" 1 (world_at db_open_loan (day 25)))))
              (mkBorrowRecord "123456" 1 (day 0) (day 14) None)
              eq_refl eq_refl eq_refl) as (bk & H1 & H2 & _).
  exists bk. split; [exact H1|]. reflexivity.
Defined.

Lemma books_adjusted_back (d : DB) (bid : Z) (bks : list BorrowRecord) :
  books_adjusted (mkDB (books_adjusted d bid (-1)) bks) bid 1 = books d.
Proof.
  apply map_eq. intros k. rewrite books_adjusted_lookup. cbn [books].
  destruct (decide (bid = k)) as [<-|Hne].
  - rewrite books_adjusted_lookup, decide_True by reflexivity.
    destruct (books d !! bid) as [[t a i n v]|]; cbn; [|reflexivity].
    unfold with_available. cbn. do 2 f_equal. lia.
  - rewrite books_adjusted_lookup, decide_False by exact Hne. reflexivity.
Qed.

(** X17. A successful borrow followed by a successful return by the same
    patron for the same book leaves every book as it was before the borrow,
    with no open record of the patron for the book; the loan stays in the
    records as their last, closed at the instant of the return. *)
Theorem borrow_then_return_restores_books (w w1 w2 : World) (p : string) (bid : Z)
  (m1 m2 : string) :
  borrow_book_by_patron p bid w = ((true, m1), w1) ->
  return_book_by_patron p bid w1 = ((true, m2), w2) ->
  books (db w2) = books (db w)
  /\ select_open_record p bid (db w2) = None
  /\ last (borrow_records (db w2))
     = Some (mkBorrowRecord p bid (clock w (ticks w))
               (clock w (ticks w) + PyTime.timedelta_days 14)
               (Some (clock w1 (ticks w1)))).
Proof.
  intros Hbor Hret.
  assert (Hs : fst (fst (borrow_book_by_patron p bid w)) = true) by (rewrite Hbor; reflexivity).
  destruct (invalid_patron_id p) eqn:Hp.
  { destruct (borrow_fails_before_writes w p bid) as [m' E]; [auto|].
    rewrite E in Hs. discriminate. }
  destruct (books (db w) !! bid) as [bk|] eqn:Hb.
  2:{ destruct (borrow_fails_before_writes w p bid) as [m' E]; [auto|].
      rewrite E in Hs. discriminate. }
  destruct (Z.le_gt_cases (available_copies bk) 0) as [Ha|Ha].
  { destruct (borrow_fails_before_writes w p bid) as [m' E]; [eauto 6|].
    rewrite E in Hs. discriminate. }
  destruct (Z.le_gt_cases 5 (open_loans p (db w))) as [Hc|Hc].
  { destruct (borrow_fails_before_writes w p bid) as [m' E]; [auto|].
    rewrite E in Hs. discriminate. }
  rewrite (borrow_past_checks w p bid bk Hp Hb ltac:(lia) Hc) in Hbor. cbv zeta in Hbor.
  destruct (disk w (writes w)); [|discriminate].
  destruct (disk w (S (writes w))); [|discriminate].
  injection Hbor as _ <-.
  assert (Hs2 : fst (fst (return_book_by_patron p bid
                  {| db := {| books := alter (fun b => with_available (available_copies b + -1) b)
                                             bid (books (db w));
                              borrow_records := borrow_records (db w)
                                ++ [mkBorrowRecord p bid (clock w (ticks w))
                                      (clock w (ticks w) + PyTime.timedelta_days 14) None] |};
                     clock := clock w; ticks := S (ticks w); disk := disk w;
                     writes := S (S (writes w)) |})) = true)
    by (rewrite Hret; reflexivity).
  match type of Hret with return_book_by_patron p bid ?w1 = _ => set (w1' := w1) in * end.
  destruct (books (db w1') !! bid) as [bk1|] eqn:Hb1.
  2:{ destruct (return_fails_before_writes w1' p bid) as [m' E]; [auto|].
      rewrite E in Hs2. discriminate. }
  destruct (select_open_record p bid (db w1')) as [r1|] eqn:Hr1.
  2:{ destruct (return_fails_before_writes w1' p bid) as [m' E]; [auto|].
      rewrite E in Hs2. discriminate. }
  rewrite (return_commits w1' p bid bk1 r1 Hp Hb1 Hr1) in Hret.
  destruct (disk w1' (writes w1')); [|discriminate].
  destruct (disk w1' (S (writes w1'))); [|discriminate].
  injection Hret as _ <-.
  destruct (calculate_effects (world_returned w1' p bid) p bid) as (-> & _).
  unfold world_returned. cbn [db books borrow_records].
  split; [|split].
  - subst w1'. cbn [db]. apply (books_adjusted_back (db w) bid).
  - unfold select_open_record, closed_records. cbn [borrow_records].
    rewrite close_leaves_none_open. reflexivity.
  - unfold closed_records. subst w1'. cbn [db borrow_records clock ticks].
    rewrite map_app. cbn [map]. rewrite last_snoc. f_equal.
    unfold close_record, of_pair, is_open. cbn.
    rewrite String.eqb_refl, Z.eqb_refl. reflexivity.
Qed.

Lemma borrow_then_return_restores_books_witness :
  books (db (snd (return_book_by_patron "123456" 1
                    (snd (borrow_book_by_patron "123456" 1 (world_at db_one_book (day 1)))))))
  = books db_one_book.
Proof.
  apply (borrow_then_return_restores_books (world_at db_one_book (day 1))
           (snd (borrow_book_by_patron "123456" 1 (world_at db_one_book (day 1))))
           (snd (return_book_by_patron "123456" 1
                   (snd (borrow_book_by_patron "123456" 1 (world_at db_one_book (day 1))))))
           "123456" 1
           (snd (fst (borrow_book_by_patron "123456" 1 (world_at db_one_book (day 1)))))
           (snd (fst (return_book_by_patron "123456" 1
                   (snd (borrow_book_by_patron "123456" 1 (world_at db_one_book (day 1))))))));
    reflexivity.
Defined.

(** ** Searching the catalog *)



Lemma length_insert_by_title (r : Z * Book) (l : list (Z * Book)) :
  length (Sql.insert_by_title r l) = S (length l).
Proof.
  induction l as [|a l IH]; [reflexivity|]. cbn [Sql.insert_by_title].
  destruct (Sql.str_leb _ _); cbn [length]; [reflexivity|]. rewrite IH. reflexivity.
Qed.

Lemma length_order_by_title (l : list (Z * Book)) :
  length (Sql.order_by_title l) = length l.
Proof.
  unfold Sql.order_by_title. induction l as [|a l IH]; [reflexivity|].
  cbn [foldr length]. rewrite length_insert_by_title, IH. reflexivity.
Qed.

Lemma insert_by_title_sorted (r : Z * Book) (l : list (Z * Book)) :
  sorted_by_title l -> sorted_by_title (Sql.insert_by_title r l).
Proof.
  unfold sorted_by_title. induction 1 as [|a l Hs IH Hhd]; cbn [Sql.insert_by_title].
  - constructor; constructor.
  - destruct (Sql.str_leb (title (snd r)) (title (snd a))) eqn:E.
    + constructor; [constructor; assumption|]. constructor. exact E.
    + constructor; [exact IH|].
      assert (Har : Sql.str_leb (title (snd a)) (title (snd r)) = true).
      { unfold Sql.str_leb in *.
        destruct (String.leb_total (title (snd a)) (title (snd r))); congruence. }
      destruct l as [|a' l]; cbn [Sql.insert_by_title]; [constructor; exact Har|].
      destruct (Sql.str_leb (title (snd r)) (title (snd a'))); constructor;
        [exact Har|]. inversion Hhd. assumption.
Qed.

Lemma order_by_title_sorted (l : list (Z * Book)) : sorted_by_title (Sql.order_by_title l).
Proof.
  unfold Sql.order_by_title. induction l as [|a l IH]; [constructor|].
  cbn [foldr]. apply insert_by_title_sorted. exact IH.
Qed.







(** X19. The rows of a search come ordered by title, in the order of the
    binary collation. *)
Theorem search_orders_by_title (w : World) (term kind : string) :
  sorted_by_title (fst (search_books_in_catalog term kind w)).
Proof.
  unfold search_books_in_catalog.
  destruct (negb (PyStr.truthy term)); [constructor|].
  destruct (negb (existsb (String.eqb kind) valid_types)); [constructor|].
  destruct (String.eqb kind "isbn"); [apply order_by_title_sorted|].
  destruct (String.eqb kind "title"); [apply order_by_title_sorted|].
  destruct (String.eqb kind "author"); [apply order_by_title_sorted|constructor].
Qed.















(** ** The patron status report *)

(** An amount that is a whole number of cents between 0 and 1500. *)
Lemma calculate_fee_is_cents (w : World) (p : string) (b : Z) :
  exists c : Z, 0 <= c <= 1500
    /\ (fee_amount (fst (calculate_late_fee_for_book p b w)) == inject_Z c / 100)%Q.
Proof.
  destruct (calculate_fee_cents w p b) as (Hfee & _).
  exists (fee_cents (days_overdue (fst (calculate_late_fee_for_book p b w)))).
  split; [|exact Hfee]. unfold fee_cents.
  destruct (Z.leb_spec (days_overdue (fst (calculate_late_fee_for_book p b w))) 0),
           (Z.leb_spec (days_overdue (fst (calculate_late_fee_for_book p b w))) 7); lia.
Qed.

(** What the loop over the held books computes: one entry for each book, in
    order, with the fee of the book; the total grows by the sum of the fees,
    in cents; nothing is written. *)
Lemma borrowed_loop_spec (p : string) (held : list BorrowedBook) :
  forall (acc : list BorrowedEntry) (total : Q) (w : World),
  exists new : list BorrowedEntry,
    fst (fst (borrowed_loop p held acc total w)) = (acc ++ new)%list
    /\ map be_book_id new = map bb_book_id held
    /\ Forall (fun e => (0 <= be_late_fee e)%Q /\ (be_late_fee e <= 15.00)%Q) new
    /\ (snd (fst (borrowed_loop p held acc total w)) == total + sum_late_fees new)%Q
    /\ (exists c : Z, 0 <= c <= 1500 * Z.of_nat (length held)
                      /\ (sum_late_fees new == inject_Z c / 100)%Q)
    /\ db (snd (borrowed_loop p held acc total w)) = db w
    /\ writes (snd (borrowed_loop p held acc total w)) = writes w.
Proof.
  induction held as [|book rest IH]; intros acc total w.
  - exists []. cbn. rewrite app_nil_r. repeat split; try constructor.
    + ring.
    + exists 0. split; [lia|reflexivity].
  - cbn [borrowed_loop]. unfold bind.
    destruct (calculate_fee_is_cents w p (bb_book_id book)) as (c & Hc & Hfee).
    destruct (calculate_effects w p (bb_book_id book)) as (Edb & Ew & _).
    destruct (calculate_late_fee_for_book p (bb_book_id book) w) as [a w1].
    cbn [fst snd] in *.
    match goal with
    | |- context [borrowed_loop p rest ?acc' ?total' w1] =>
        destruct (IH acc' total' w1) as (new & Hl & Hids & Hrange & Htot & (c' & Hc' & Hsum)
                                         & Hdb & Hwr)
    end.
    match goal with
    | _ : fst (fst (borrowed_loop p rest (acc ++ [?e])%list _ w1)) = _ |- _ =>
        exists (e :: new)
    end.
    split; [rewrite Hl, <- app_assoc; reflexivity|].
    split; [cbn [map be_book_id]; rewrite Hids; reflexivity|].
    split.
    { constructor; [|exact Hrange]. cbn [be_late_fee]. rewrite Hfee.
      split; unfold Qle; cbn; lia. }
    split.
    { rewrite Htot. cbn [sum_late_fees foldr be_late_fee]. fold (sum_late_fees new). ring. }
    split.
    { exists (c + c'). split; [cbn [length]; lia|].
      cbn [sum_late_fees foldr be_late_fee]. fold (sum_late_fees new).
      rewrite Hfee, Hsum. unfold Qeq. cbn. lia. }
    split; congruence.
Qed.

Section ReportFacts.

Variable get_patron_borrowed_books : string -> M (list BorrowedBook).

Lemma report_invalid (p : string) (w : World) :
  invalid_patron_id p = true ->
  get_patron_status_report get_patron_borrowed_books p w = (None, w).
Proof. intros H. unfold get_patron_status_report. rewrite H. reflexivity. Qed.

(** The report of a valid patron id, step by step. *)
Lemma report_valid (p : string) (w : World) :
  invalid_patron_id p = false ->
  let held := fst (get_patron_borrowed_books p w) in
  let w1 := snd (get_patron_borrowed_books p w) in
  let looped := fst (borrowed_loop p held [] 0.00%Q w1) in
  let w2 := snd (borrowed_loop p held [] 0.00%Q w1) in
  get_patron_status_report get_patron_borrowed_books p w
  = (Some (mkStatusReport (fst looped) (Money.round2 (snd looped)) (length (fst looped))
                          (map history_entry (select_history p (db w2)))),
     w2).
Proof.
  intros H. unfold get_patron_status_report. rewrite H. unfold bind, query, ret.
  destruct (get_patron_borrowed_books p w) as [held w1]. cbn [fst snd].
  destruct (borrowed_loop p held [] 0.00%Q w1) as [looped w2]. reflexivity.
Qed.

End ReportFacts.

(** X22. For an invalid patron id the report is empty and nothing is read or
    written.  For a valid one the report has one entry for each book the
    accessor lists, in the same order; the count is the number of entries;
    each entry has a late fee between 0.00 and 15.00; the total is the sum of
    these fees, so at most 15.00 for each book; and making the report writes
    nothing to the store. *)
Theorem report_counts_and_fees (get_patron_borrowed_books : string -> M (list BorrowedBook))
  (p : string) (w : World) :
  (invalid_patron_id p = true ->
   get_patron_status_report get_patron_borrowed_books p w = (None, w))
  /\ (invalid_patron_id p = false ->
      exists rep,
        fst (get_patron_status_report get_patron_borrowed_books p w) = Some rep
        /\ books_borrowed_count rep = length (currently_borrowed rep)
        /\ map be_book_id (currently_borrowed rep)
           = map bb_book_id (fst (get_patron_borrowed_books p w))
        /\ Forall (fun e => (0 <= be_late_fee e)%Q /\ (be_late_fee e <= 15.00)%Q)
                  (currently_borrowed rep)
        /\ (total_late_fees rep == sum_late_fees (currently_borrowed rep))%Q
        /\ (0 <= total_late_fees rep)%Q
        /\ (total_late_fees rep <= 15 * inject_Z (Z.of_nat (books_borrowed_count rep)))%Q
        /\ db (snd (get_patron_status_report get_patron_borrowed_books p w))
           = db (snd (get_patron_borrowed_books p w))
        /\ writes (snd (get_patron_status_report get_patron_borrowed_books p w))
           = writes (snd (get_patron_borrowed_books p w))).
Proof.
  split; [apply report_invalid|]. intros Hp.
  rewrite (report_valid get_patron_borrowed_books p w Hp). cbv zeta. cbn [fst snd].
  destruct (borrowed_loop_spec p (fst (get_patron_borrowed_books p w)) [] 0.00%Q
              (snd (get_patron_borrowed_books p w)))
    as (new & Hl & Hids & Hrange & Htot & (c & Hc & Hsum) & Hdb & Hwr).
  cbn [app] in Hl.
  assert (Hlen : length new = length (fst (get_patron_borrowed_books p w))).
  { rewrite <- (length_map be_book_id), Hids. apply length_map. }
  assert (Hcents : (snd (fst (borrowed_loop p (fst (get_patron_borrowed_books p w)) []
                                  0.00%Q (snd (get_patron_borrowed_books p w))))
                    == inject_Z c / 100)%Q).
  { rewrite Htot, Hsum. unfold Qeq. cbn. lia. }
  eexists. split; [reflexivity|].
  cbn [books_borrowed_count currently_borrowed total_late_fees]. rewrite Hl.
  split; [reflexivity|]. split; [exact Hids|]. split; [exact Hrange|].
  rewrite (round2_cents _ c Hcents).
  split; [rewrite Htot; unfold Qeq; cbn; lia|].
  split; [rewrite Hcents; unfold Qle; cbn; lia|].
  split; [rewrite Hcents, Hlen; unfold Qle; cbn; lia|].
  split; assumption.
Qed.

Lemma report_counts_and_fees_witness :
  exists rep,
    fst (get_patron_status_report (stub_borrowed held_by_123456) "123456"
           (world_at db_three_loans (day 25))) = Some rep
    /\ books_borrowed_count rep = 2%nat
    /\ (total_late_fees rep == 7.50)%Q.
Proof.
  destruct (report_counts_and_fees (stub_borrowed held_by_123456) "123456"
              (world_at db_three_loans (day 25))) as [_ H].
  destruct (H eq_refl) as (rep & Hrep & _).
  exists rep. split; [exact Hrep|].
  vm_compute in Hrep. injection Hrep as <-. split; reflexivity.
Defined.

Lemma in_insert_newest_first (x y : BorrowRecord * Book) (l : list (BorrowRecord * Book)) :
  In x (insert_newest_first y l) <-> x = y \/ In x l.
Proof.
  induction l as [|a l IH]; cbn [insert_newest_first].
  - cbn. intuition congruence.
  - destruct (_ <=? _); cbn [In]; [intuition congruence|].
    rewrite IH. intuition congruence.
Qed.

Lemma insert_newest_first_sorted (x : BorrowRecord * Book) (l : list (BorrowRecord * Book)) :
  newest_first l -> newest_first (insert_newest_first x l).
Proof.
  unfold newest_first. induction 1 as [|a l Hs IH Hhd]; cbn [insert_newest_first].
  - constructor; constructor.
  - destruct (Z.leb_spec (borrow_date (fst a)) (borrow_date (fst x))) as [E|E].
    + constructor; [constructor; assumption|]. constructor. exact E.
    + constructor; [exact IH|].
      destruct l as [|a' l]; cbn [insert_newest_first]; [constructor; lia|].
      destruct (borrow_date (fst a') <=? borrow_date (fst x)); constructor; [lia|].
      inversion Hhd. assumption.
Qed.

Lemma length_insert_newest_first (x : BorrowRecord * Book) (l : list (BorrowRecord * Book)) :
  length (insert_newest_first x l) = S (length l).
Proof.
  induction l as [|a l IH]; [reflexivity|]. cbn [insert_newest_first].
  destruct (_ <=? _); cbn [length]; [reflexivity|]. rewrite IH. reflexivity.
Qed.

(** The rows of the history: the records of the patron joined with their
    books, from the newest borrow to the oldest, as many as there are such
    records. *)
Lemma select_history_spec (p : string) (d : DB) :
  newest_first (select_history p d)
  /\ (forall r b, In (r, b) (select_history p d)
                  <-> In r (borrow_records d) /\ patron_id r = p
                      /\ books d !! book_id r = Some b)
  /\ length (select_history p d)
     = length (List.filter (fun r => String.eqb (patron_id r) p
                                     && bool_decide (is_Some (books d !! book_id r)))
                           (borrow_records d)).
Proof.
  unfold select_history.
  set (joined := flat_map _ _).
  assert (Hsort : forall l, newest_first (foldr insert_newest_first [] l)).
  { induction l as [|a l IH]; [constructor|]. apply insert_newest_first_sorted, IH. }
  assert (Hin : forall l x, In x (foldr insert_newest_first [] l) <-> In x l).
  { induction l as [|a l IH]; intros x; [reflexivity|].
    cbn [foldr In]. rewrite in_insert_newest_first, IH. intuition congruence. }
  assert (Hlen : forall l, length (foldr insert_newest_first [] l) = length l).
  { induction l as [|a l IH]; [reflexivity|].
    cbn [foldr length]. rewrite length_insert_newest_first, IH. reflexivity. }
  split; [apply Hsort|]. split.
  - intros r b. rewrite Hin. subst joined. rewrite in_flat_map. split.
    + intros (r' & Hr' & Hb). apply filter_In in Hr'. destruct Hr' as [Hr' Hp].
      apply String.eqb_eq in Hp.
      destruct (books d !! book_id r') as [b'|] eqn:E; [|destruct Hb].
      destruct Hb as [Hb|[]]. injection Hb as -> ->. auto.
    + intros (Hr & Hp & Hb). exists r. split.
      * apply filter_In. split; [exact Hr|]. apply String.eqb_eq. exact Hp.
      * rewrite Hb. left. reflexivity.
  - rewrite Hlen. subst joined. induction (borrow_records d) as [|r l IH]; [reflexivity|].
    cbn [List.filter]. destruct (String.eqb (patron_id r) p); cbn [andb flat_map]; [|exact IH].
    destruct (books d !! book_id r) as [b|] eqn:E.
    + rewrite bool_decide_true by eauto. cbn [app length]. rewrite IH. reflexivity.
    + rewrite bool_decide_false by (intros [? ?]; discriminate). exact IH.
Qed.

(** X23. The history of the report of a valid patron id has one entry for
    each borrow record of the patron whose book is in the catalog, and no
    other; the entries come from the newest borrow to the oldest; an entry is
    marked [Returned] and has a return date when its record is closed, and is
    marked [Borrowed] and has none when its record is open. *)
Theorem report_history (get_patron_borrowed_books : string -> M (list BorrowedBook))
  (p : string) (w : World) :
  invalid_patron_id p = false ->
  exists rep rows,
    fst (get_patron_status_report get_patron_borrowed_books p w) = Some rep
    /\ borrowing_history rep = map history_entry rows
    /\ newest_first rows
    /\ (forall r b, In (r, b) rows
                    <-> In r (borrow_records (db (snd (get_patron_borrowed_books p w))))
                        /\ patron_id r = p
                        /\ books (db (snd (get_patron_borrowed_books p w))) !! book_id r
                           = Some b)
    /\ length (borrowing_history rep)
       = length (List.filter
                   (fun r => String.eqb (patron_id r) p
                             && bool_decide (is_Some
                                  (books (db (snd (get_patron_borrowed_books p w)))
                                     !! book_id r)))
                   (borrow_records (db (snd (get_patron_borrowed_books p w)))))
    /\ Forall (fun row =>
                 match return_date (fst row) with
                 | Some t => he_status (history_entry row) = "Returned"
                             /\ he_return_date (history_entry row)
                                = Some (PyTime.strftime_ymd t)
                 | None => he_status (history_entry row) = "Borrowed"
                           /\ he_return_date (history_entry row) = None
                 end) rows.
Proof.
  intros Hp. rewrite (report_valid get_patron_borrowed_books p w Hp). cbv zeta. cbn [fst].
  destruct (borrowed_loop_spec p (fst (get_patron_borrowed_books p w)) [] 0.00%Q
              (snd (get_patron_borrowed_books p w)))
    as (_ & _ & _ & _ & _ & _ & Hdb & _).
  rewrite Hdb.
  destruct (select_history_spec p (db (snd (get_patron_borrowed_books p w))))
    as (Hs & Hin & Hlen).
  eexists _, _. split; [reflexivity|]. cbn [borrowing_history].
  split; [reflexivity|]. split; [exact Hs|]. split; [exact Hin|].
  split; [rewrite length_map; exact Hlen|].
  apply Forall_forall. intros [r b] _. cbn [fst history_entry he_status he_return_date].
  destruct (return_date r); split; reflexivity.
Qed.

Lemma report_history_witness :
  exists rep,
    fst (get_patron_status_report (stub_borrowed held_by_123456) "123456"
           (world_at db_three_loans (day 25))) = Some rep
    /\ map he_book_id (borrowing_history rep) = [2; 3; 1]
    /\ map he_status (borrowing_history rep) = ["Borrowed"; "Returned"; "Borrowed"].
Proof.
  destruct (report_history (stub_borrowed held_by_123456) "123456"
              (world_at db_three_loans (day 25)) eq_refl) as (rep & rows & Hrep & _).
  exists rep. split; [exact Hrep|].
  vm_compute in Hrep. injection Hrep as <-. split; reflexivity.
Defined.
